(** * WordAhead reading assistant: the GPTSMReader component

    A shallow embedding of [src/components/GPTSMReader.jsx]: the React state
    of the component, its three event handlers ([handleAnalyze],
    [handleWordClick], [closeSidebar]) with their suspension points, the
    JavaScript operations they apply to the JSON values they receive, and the
    part of the rendered tree that depends on that state.

    An [async] handler runs in stretches.  A stretch ends at an [await] by
    parking the rest of the handler, with what its closure holds, under an
    id; the event loop resumes it when the promise settles.  [setTimeout]
    parks a timer the same way, due at a time of a clock that only [Elapse]
    moves.  What the network answers, and when, is the choice of whoever
    feeds the loop its events.

    Strings are sequences of code units below 256, one [ascii] each: text
    with a code unit above 255 (and so every surrogate) is outside the
    model, and what is proved of [trim] and [encodeURIComponent] is proved
    of text in that range.  The static parts of the tree (header, legend,
    captions) are left out. *)

From Stdlib Require Import Ascii DecimalString.
From stdpp Require Import gmap strings list.

Local Open Scope string_scope.

(** ** The JavaScript engine *)

(** The [TypeError]s the engine can raise in the operations used here. *)
Inductive type_error :=
  | ReadOfNullish (is_null : bool) (key : string) (* null.key, undefined.key *)
  | NotAFunction (key : string)                   (* x.key(...) with x.key not callable *)
  | NoPrimitiveValue.                             (* an object without a usable toString *)

(** Decimal digits of a natural number, as in a template literal. *)
Definition decimal (n : N) : string := NilZero.string_of_uint (N.to_uint n).

(** Numbers are IEEE doubles in the engine.  The component never computes
    with them: it tests them, prints them and passes them on.  Those
    operations are the interface of the number type, together with what the
    language fixes about them on the integers a length or a status code can
    be.  The text of a [TypeError] and the build-time environment variable
    belong to the engine as well. *)
Class Engine := {
  number : Type;
  NumberToString : number → string;
  NumberToBoolean : number → bool;
  NumberIsPositive : number → bool;        (* 0 < x *)
  StringToNumber : string → number;
  number_of_N : N → number;
  TypeErrorMessage : type_error → string;
  VITE_API_URL : option string;            (* import.meta.env.VITE_API_URL *)
  NumberToString_of_N :
    ∀ n : N, (n < 2 ^ 53)%N → NumberToString (number_of_N n) = decimal n;
  NumberIsPositive_of_N :
    ∀ n : N, NumberIsPositive (number_of_N n) = (0 <? n)%N;
}.

(** ** Values *)

(** What [response.json()] can yield, and [undefined]. *)
Local Unset Elimination Schemes.
Inductive jsval `{Engine} :=
  | JUndefined
  | JNull
  | JBool (b : bool)
  | JNum (n : number)
  | JStr (s : string)
  | JArr (elems : list jsval)
  | JObj (props : gmap string jsval).
Local Set Elimination Schemes.

(** A thrown value: every value thrown or rejected here is an error object,
    of which only [message] is read. *)
Record exn := Error { message : string }.

Inductive completion (A : Type) :=
  | Normal (a : A)
  | Throw (e : exn).
Arguments Normal {A} a.
Arguments Throw {A} e.

Definition cbind {A B} (c : completion A) (k : A → completion B) : completion B :=
  match c with
  | Normal a => k a
  | Throw e => Throw e
  end.

Section Language.
Context `{Engine}.

Definition TypeError (why : type_error) : exn := Error (TypeErrorMessage why).

Definition ToBoolean (v : jsval) : bool :=
  match v with
  | JUndefined | JNull => false
  | JBool b => b
  | JNum n => NumberToBoolean n
  | JStr s => negb (String.eqb s "")
  | JArr _ | JObj _ => true
  end.

(** [v.key] for a key that no built-in prototype defines: the data keys of
    an annotation ([words], [word], [importance], [opacity], ...). *)
Definition Get (v : jsval) (key : string) : completion jsval :=
  match v with
  | JUndefined => Throw (TypeError (ReadOfNullish false key))
  | JNull => Throw (TypeError (ReadOfNullish true key))
  | JObj props => Normal (default JUndefined (props !! key))
  | _ => Normal JUndefined
  end.

(** [v.length] *)
Definition GetLength (v : jsval) : completion jsval :=
  match v with
  | JArr elems => Normal (JNum (number_of_N (N.of_nat (length elems))))
  | JStr s => Normal (JNum (number_of_N (N.of_nat (String.length s))))
  | _ => Get v "length"
  end.

(** [a || b] *)
Definition JsOr (a b : jsval) : jsval := if ToBoolean a then a else b.

(** ToString.  An array prints its elements joined by commas, [null] and
    [undefined] as nothing; an object built from JSON prints as
    [[object Object]] unless a key of its own hides [toString], and then
    nothing callable is left to convert it. *)
Fixpoint ToString (v : jsval) : completion string :=
  match v with
  | JUndefined => Normal "undefined"
  | JNull => Normal "null"
  | JBool true => Normal "true"
  | JBool false => Normal "false"
  | JNum n => Normal (NumberToString n)
  | JStr s => Normal s
  | JArr elems =>
      (fix join (l : list jsval) : completion string :=
         match l with
         | [] => Normal ""
         | x :: rest =>
             cbind (match x with
                    | JUndefined | JNull => Normal ""
                    | _ => ToString x
                    end) (λ sx,
             match rest with
             | [] => Normal sx
             | _ => cbind (join rest) (λ sr, Normal (sx ++ "," ++ sr))
             end)
         end) elems
  | JObj props =>
      match props !! "toString" with
      | Some _ => Throw (TypeError NoPrimitiveValue)
      | None => Normal "[object Object]"
      end
  end.

(** [v > 0] *)
Definition GreaterThanZero (v : jsval) : completion bool :=
  match v with
  | JUndefined | JNull => Normal false
  | JBool b => Normal b
  | JNum n => Normal (NumberIsPositive n)
  | JStr s => Normal (NumberIsPositive (StringToNumber s))
  | JArr _ | JObj _ =>
      cbind (ToString v) (λ s, Normal (NumberIsPositive (StringToNumber s)))
  end.

(** The own enumerable properties [{...v}] copies: those of an object, the
    elements of an array and the characters of a string under their indices;
    nothing for any other value. *)
Definition indexed {A} (l : list A) : gmap string A :=
  list_to_map (imap (λ i x, (decimal (N.of_nat i), x)) l).

Definition characters (s : string) : list jsval :=
  (λ c, JStr (String c "")) <$> String.list_ascii_of_string s.

Definition spread (v : jsval) : gmap string jsval :=
  match v with
  | JObj props => props
  | JArr elems => indexed elems
  | JStr s => indexed (characters s)
  | _ => ∅
  end.

(** [{...a, ...b}]: the properties of [b] win. *)
Definition spread2 (a b : jsval) : jsval := JObj (spread b ∪ spread a).

(** [s.trim()].  The white space and line terminators below 256 are the
    code units 9 to 13, 32 and 160; the others that [trim] strips (U+1680,
    U+2000 to U+200A, U+2028, U+2029, U+202F, U+205F, U+3000, U+FEFF) lie
    above 255. *)
Definition is_white_space (c : ascii) : bool :=
  let n := nat_of_ascii c in
  (9 <=? n)%nat && (n <=? 13)%nat || (n =? 32)%nat || (n =? 160)%nat.

Fixpoint trimStart (s : string) : string :=
  match s with
  | String c rest => if is_white_space c then trimStart rest else s
  | EmptyString => ""
  end.

Definition trimEnd (s : string) : string := String.rev (trimStart (String.rev s)).

Definition trim (s : string) : string := trimEnd (trimStart s).

Fixpoint whitespace_only (s : string) : bool :=
  match s with
  | String c rest => is_white_space c && whitespace_only rest
  | EmptyString => true
  end.

(** [encodeURIComponent(s)]: letters, digits and [-_.!~*'()] stay, every
    other code unit is written as the percent-escaped bytes of its UTF-8
    encoding, one byte below 128 and two from 128 to 255.  The longer
    encodings, and the [URIError] on a lone surrogate, belong to code units
    above 255. *)
Definition is_unreserved (c : ascii) : bool :=
  let n := nat_of_ascii c in
  (65 <=? n)%nat && (n <=? 90)%nat || (97 <=? n)%nat && (n <=? 122)%nat
  || (48 <=? n)%nat && (n <=? 57)%nat
  || bool_decide (c ∈ String.list_ascii_of_string "-_.!~*'()").

Definition hex_digit (n : nat) : ascii :=
  default "0"%char (String.list_ascii_of_string "0123456789ABCDEF" !! n).

Definition percent (byte : nat) : string :=
  String "%" (String (hex_digit (byte / 16)) (String (hex_digit (byte mod 16)) "")).

Definition escape (c : ascii) : string :=
  let n := nat_of_ascii c in
  if is_unreserved c then String c ""
  else if (n <? 128)%nat then percent n
  else percent (192 + n / 64) ++ percent (128 + n mod 64).

Fixpoint encodeURIComponent (s : string) : string :=
  match s with
  | String c rest => escape c ++ encodeURIComponent rest
  | EmptyString => ""
  end.

(** [const API_URL = import.meta.env.VITE_API_URL || 'http://localhost:5000'] *)
Definition API_URL : string :=
  match VITE_API_URL with
  | Some s => if String.eqb s "" then "http://localhost:5000" else s
  | None => "http://localhost:5000"
  end.

End Language.

(** ** The component and its surroundings *)

(** The six [useState] cells.  [error] is [null] or a message. *)
Record state `{Engine} := State {
  inputText : string;
  processedWords : jsval;
  isLoading : bool;
  error : option string;
  selectedWord : jsval;
  sidebarOpen : bool;
}.

(** A call of [fetch].  [body] is the value handed to [JSON.stringify]. *)
Record request `{Engine} := Request {
  url : string;
  method : string;
  headers : list (string * string);
  body : option jsval;
}.

(** What the handlers read of a [Response]. *)
Record response := Response { status : N }.

Definition ok (r : response) : bool := (200 <=? status r)%N && (status r <=? 299)%N.

Inductive log_entry `{Engine} :=
  | ConsoleLog (label : string) (arg : jsval)
  | ConsoleError (label : string) (err : exn).

(** A handler that waits: where it stands and what its closure holds. *)
Inductive task `{Engine} :=
  | AnalyzeFetch                        (* handleAnalyze at [await fetch(...)] *)
  | AnalyzeJson                         (* handleAnalyze at [await response.json()] *)
  | TranslateFetch (wordData : jsval)   (* handleWordClick at [await fetch(...)] *)
  | TranslateJson (wordData : jsval)    (* handleWordClick at [await response.json()] *)
  | Timeout (due : N).                  (* [() => setSelectedWord(null)] *)

Record world `{Engine} := World {
  ui : state;
  pending : gmap nat task;
  next_id : nat;
  network : list request;     (* newest first *)
  console : list log_entry;   (* newest first *)
  now : N;                    (* milliseconds *)
}.

Section Component.
Context `{Engine}.

Definition initial_state : state :=
  {| inputText := ""; processedWords := JArr []; isLoading := false;
     error := None; selectedWord := JNull; sidebarOpen := false |}.

Definition initial_world : world :=
  {| ui := initial_state; pending := ∅; next_id := 0; network := [];
     console := []; now := 0 |}.

Definition with_ui (f : state → state) (w : world) : world :=
  {| ui := f (ui w); pending := pending w; next_id := next_id w;
     network := network w; console := console w; now := now w |}.

Definition setInputText (v : string) : world → world :=
  with_ui (λ s, {| inputText := v; processedWords := processedWords s;
                   isLoading := isLoading s; error := error s;
                   selectedWord := selectedWord s; sidebarOpen := sidebarOpen s |}).

Definition setProcessedWords (v : jsval) : world → world :=
  with_ui (λ s, {| inputText := inputText s; processedWords := v;
                   isLoading := isLoading s; error := error s;
                   selectedWord := selectedWord s; sidebarOpen := sidebarOpen s |}).

Definition setIsLoading (v : bool) : world → world :=
  with_ui (λ s, {| inputText := inputText s; processedWords := processedWords s;
                   isLoading := v; error := error s;
                   selectedWord := selectedWord s; sidebarOpen := sidebarOpen s |}).

Definition setError (v : option string) : world → world :=
  with_ui (λ s, {| inputText := inputText s; processedWords := processedWords s;
                   isLoading := isLoading s; error := v;
                   selectedWord := selectedWord s; sidebarOpen := sidebarOpen s |}).

Definition setSelectedWord (v : jsval) : world → world :=
  with_ui (λ s, {| inputText := inputText s; processedWords := processedWords s;
                   isLoading := isLoading s; error := error s;
                   selectedWord := v; sidebarOpen := sidebarOpen s |}).

Definition setSidebarOpen (v : bool) : world → world :=
  with_ui (λ s, {| inputText := inputText s; processedWords := processedWords s;
                   isLoading := isLoading s; error := error s;
                   selectedWord := selectedWord s; sidebarOpen := v |}).

Definition log (e : log_entry) (w : world) : world :=
  {| ui := ui w; pending := pending w; next_id := next_id w;
     network := network w; console := e :: console w; now := now w |}.

Definition fetch (r : request) (w : world) : world :=
  {| ui := ui w; pending := pending w; next_id := next_id w;
     network := r :: network w; console := console w; now := now w |}.

(** Park a handler (or a timer) under a fresh id. *)
Definition suspend (t : task) (w : world) : world :=
  {| ui := ui w; pending := <[next_id w := t]> (pending w);
     next_id := S (next_id w); network := network w; console := console w;
     now := now w |}.

Definition resume (id : nat) (w : world) : world :=
  {| ui := ui w; pending := delete id (pending w); next_id := next_id w;
     network := network w; console := console w; now := now w |}.

Definition tick (ms : N) (w : world) : world :=
  {| ui := ui w; pending := pending w; next_id := next_id w;
     network := network w; console := console w; now := (now w + ms)%N |}.

(** *** Statements that may throw *)

(** A stretch of a handler between two suspension points: it changes the
    world and completes, throws, or stops at an [await]. *)
Inductive signal := Return | Await (t : task).

Definition M (A : Type) : Type := world → completion A * world.

#[local] Instance M_ret : MRet M := λ A a w, (Normal a, w).
#[local] Instance M_bind : MBind M := λ A B k m w,
  match m w with
  | (Normal a, w') => k a w'
  | (Throw e, w') => (Throw e, w')
  end.

Definition throw {A} (e : exn) : M A := λ w, (Throw e, w).
Definition lift {A} (c : completion A) : M A := λ w, (c, w).
Definition act (f : world → world) : M unit := λ w, (Normal tt, f w).

(** [try { body } catch (err) { handler } finally { finalizer }], for a body
    that runs up to its next [await]: a suspended body keeps its place, the
    handler and the finalizer run when it completes or throws. *)
Definition try_catch_finally (body : M signal) (handler : exn → world → world)
    (finalizer : world → world) (w : world) : world :=
  match body w with
  | (Normal (Await t), w') => suspend t w'
  | (Normal Return, w') => finalizer w'
  | (Throw err, w') => finalizer (handler err w')
  end.

(** *** handleAnalyze *)

Definition handleAnalyze_try (body : M signal) : world → world :=
  try_catch_finally body
    (λ err w,
       setError (Some ("Failed to process text: " ++ message err))
         (log (ConsoleError "Error:" err) w))
    (setIsLoading false).

Definition handleAnalyze (w : world) : world :=
  if negb (ToBoolean (JStr (trim (inputText (ui w))))) then
    setError (Some "Please enter some text to analyze") w
  else
    handleAnalyze_try
      (act (log (ConsoleLog "Sending request to:" (JStr (API_URL ++ "/api/process-text"))));;
       act (fetch {| url := API_URL ++ "/api/process-text";
                     method := "POST";
                     headers := [("Content-Type", "application/json")];
                     body := Some (JObj {[ "text" := JStr (inputText (ui w)) ]}) |});;
       mret (Await AnalyzeFetch))
      (setError None (setIsLoading true w)).

(** ... resumed with the outcome of [fetch] *)
Definition handleAnalyze_fetched (r : completion response) : world → world :=
  handleAnalyze_try
    (response ← lift r;
     if negb (ok response) then
       throw (Error ("Server error: " ++ NumberToString (number_of_N (status response))))
     else
       mret (Await AnalyzeJson)).

(** ... resumed with the outcome of [response.json()] *)
Definition handleAnalyze_parsed (r : completion jsval) : world → world :=
  handleAnalyze_try
    (data ← lift r;
     act (log (ConsoleLog "Received data:" data));;
     words ← lift (Get data "words");
     nonempty ← (if ToBoolean words then
                   lift (cbind (GetLength words) GreaterThanZero)
                 else mret false);
     (if nonempty : bool then
        act (setProcessedWords words);;
        act (setError None)
      else
        act (setError (Some "No words returned from server")));;
     mret Return).

(** *** handleWordClick *)

Definition handleWordClick_try (body : M signal) : world → world :=
  try_catch_finally body
    (λ err w, log (ConsoleError "Translation error:" err) w)
    (λ w, w).

Definition handleWordClick (wordData : jsval) (w : world) : world :=
  handleWordClick_try
    (word ← lift (Get wordData "word");
     component ← lift (ToString word);
     act (fetch {| url := API_URL ++ "/api/translate/word/" ++ encodeURIComponent component;
                   method := "GET"; headers := []; body := None |});;
     mret (Await (TranslateFetch wordData)))
    (setSidebarOpen true (setSelectedWord wordData w)).

Definition handleWordClick_fetched (wordData : jsval) (r : completion response)
    : world → world :=
  handleWordClick_try
    (response ← lift r;
     mret (Await (TranslateJson wordData))).

Definition handleWordClick_parsed (wordData : jsval) (r : completion jsval)
    : world → world :=
  handleWordClick_try
    (translationData ← lift r;
     act (setSelectedWord (spread2 wordData translationData));;
     mret Return).

(** *** closeSidebar *)

Definition closeSidebar (w : world) : world :=
  suspend (Timeout (now w + 300)) (setSidebarOpen false w).

Definition closeSidebar_timeout : world → world := setSelectedWord JNull.

End Component.

(** ** Rendering *)

(** One [<span>] of the word list: its class, its [style.opacity], the
    value its [onClick] hands to [handleWordClick], and its text. *)
Record word_span `{Engine} := WordSpan {
  className : string;
  opacity : jsval;
  onClick : jsval;
  label : jsval;
}.

(** The detail panel. *)
Record panel `{Engine} := Panel {
  word_title : jsval;
  hebrew_text : jsval;
  transliteration : jsval;
  importance : jsval;
  cefr_className : string;
  cefr_badge : jsval;
  root : jsval;
  examples : option (list (jsval * jsval));   (* english, hebrew *)
  note : option jsval;
}.

(** What the returned tree shows of the state. *)
Record view `{Engine} := View {
  textarea_value : string;
  analyze_disabled : bool;
  error_message : option string;
  results : option (list word_span);
  sidebar : option panel;
}.

Section Render.
Context `{Engine}.

Fixpoint traverse {A B} (f : A → completion B) (l : list A) : completion (list B) :=
  match l with
  | [] => Normal []
  | x :: rest =>
      cbind (f x) (λ y, cbind (traverse f rest) (λ ys, Normal (y :: ys)))
  end.

(** [v.map(f)] *)
Definition ArrayMap {B} (v : jsval) (f : jsval → completion B) : completion (list B) :=
  match v with
  | JArr elems => traverse f elems
  | JUndefined => Throw (TypeError (ReadOfNullish false "map"))
  | JNull => Throw (TypeError (ReadOfNullish true "map"))
  | _ => Throw (TypeError (NotAFunction "map"))
  end.

Definition render_word (wordData : jsval) : completion word_span :=
  cbind (Get wordData "importance") (λ imp,
  cbind (ToString imp) (λ bucket,
  cbind (Get wordData "opacity") (λ op,
  cbind (Get wordData "word") (λ word,
  Normal {| className := "word importance-" ++ bucket; opacity := op;
            onClick := wordData; label := word |})))).

(** [{processedWords.length > 0 && (...)}] *)
Definition render_results (s : state) : completion (option (list word_span)) :=
  cbind (GetLength (processedWords s)) (λ len,
  cbind (GreaterThanZero len) (λ nonempty,
  if nonempty : bool then
    cbind (ArrayMap (processedWords s) render_word) (λ spans, Normal (Some spans))
  else Normal None)).

Definition placeholder_loading : string := "טוען...".

Definition render_example (example : jsval) : completion (jsval * jsval) :=
  cbind (Get example "english") (λ en,
  cbind (Get example "hebrew") (λ he, Normal (en, he))).

Definition render_panel (selected : jsval) : completion panel :=
  cbind (Get selected "word") (λ word,
  cbind (Get selected "translation") (λ translation,
  cbind (Get selected "transliteration") (λ translit,
  cbind (Get selected "importance") (λ imp,
  cbind (Get selected "cefr_level") (λ cefr,
  cbind (ToString (JsOr cefr (JStr "B1"))) (λ cefr_class,
  cbind (Get selected "root") (λ rt,
  cbind (Get selected "example_sentences") (λ sentences,
  cbind (if ToBoolean sentences then
           cbind (GetLength sentences) GreaterThanZero
         else Normal false) (λ has_examples,
  cbind (if has_examples : bool then
           cbind (ArrayMap sentences render_example) (λ l, Normal (Some l))
         else Normal None) (λ exs,
  cbind (Get selected "note") (λ nt,
  Normal {| word_title := word;
            hebrew_text := JsOr translation (JStr placeholder_loading);
            transliteration := JsOr translit (JStr "");
            importance := imp;
            cefr_className := "cefr-badge cefr-" ++ cefr_class;
            cefr_badge := JsOr cefr (JStr "B1");
            root := JsOr rt (JStr "Unknown");
            examples := exs;
            note := if ToBoolean nt then Some nt else None |}))))))))))).

(** [{sidebarOpen && selectedWord && (...)}] *)
Definition render_sidebar (s : state) : completion (option panel) :=
  if sidebarOpen s && ToBoolean (selectedWord s) then
    cbind (render_panel (selectedWord s)) (λ p, Normal (Some p))
  else Normal None.

Definition render (s : state) : completion view :=
  cbind (render_results s) (λ res,
  cbind (render_sidebar s) (λ side,
  Normal {| textarea_value := inputText s;
            analyze_disabled := isLoading s;
            error_message := match error s with
                             | Some msg => if String.eqb msg "" then None else Some msg
                             | None => None
                             end;
            results := res;
            sidebar := side |})).

End Render.

(** ** The event loop *)

Inductive event `{Engine} :=
  | Change (value : string)                          (* typing in the textarea *)
  | ClickAnalyze
  | ClickWord (index : nat)
  | ClickClose                                       (* the overlay or the close button *)
  | FetchSettled (id : nat) (r : completion response)
  | JsonSettled (id : nat) (r : completion jsval)
  | TimerFired (id : nat)
  | Elapse (ms : N).

Section EventLoop.
Context `{Engine}.

(** One turn of the loop.  A click reaches the handler the last render bound
    to the element, if that element is there and enabled; a settled promise
    or a due timer resumes what was parked under its id. *)
Definition step (w : world) (e : event) : world :=
  match e with
  | Change value =>
      match render (ui w) with
      | Normal _ => setInputText value w
      | Throw _ => w
      end
  | ClickAnalyze =>
      match render (ui w) with
      | Normal v => if analyze_disabled v then w else handleAnalyze w
      | Throw _ => w
      end
  | ClickWord index =>
      match render (ui w) with
      | Normal v =>
          match results v ≫= (.!! index) with
          | Some span => handleWordClick (onClick span) w
          | None => w
          end
      | Throw _ => w
      end
  | ClickClose =>
      match render (ui w) with
      | Normal v =>
          match sidebar v with
          | Some _ => closeSidebar w
          | None => w
          end
      | Throw _ => w
      end
  | FetchSettled id r =>
      match pending w !! id with
      | Some AnalyzeFetch => handleAnalyze_fetched r (resume id w)
      | Some (TranslateFetch wordData) => handleWordClick_fetched wordData r (resume id w)
      | _ => w
      end
  | JsonSettled id r =>
      match pending w !! id with
      | Some AnalyzeJson => handleAnalyze_parsed r (resume id w)
      | Some (TranslateJson wordData) => handleWordClick_parsed wordData r (resume id w)
      | _ => w
      end
  | TimerFired id =>
      match pending w !! id with
      | Some (Timeout due) =>
          if (due <=? now w)%N then closeSidebar_timeout (resume id w) else w
      | _ => w
      end
  | Elapse ms => tick ms w
  end.

Definition run (w : world) (es : list event) : world := foldl step w es.

(** Ids are handed out in order: nothing is parked at or above [next_id]. *)
Definition wf (w : world) : Prop :=
  map_Forall (λ id _, id < next_id w) (pending w).

(** How the network answers one call that does two awaits. *)
Inductive network_outcome :=
  | Rejected (err : exn)                               (* [fetch] rejects *)
  | Answered (r : response) (parsed : completion jsval). (* [response.json()] settles *)

Definition settle (id : nat) (o : network_outcome) (w : world) : world :=
  match o with
  | Rejected err => step w (FetchSettled id (Throw err))
  | Answered r parsed =>
      step (step w (FetchSettled id (Normal r))) (JsonSettled (next_id w) parsed)
  end.

(** [handleAnalyze()] run to its end against a given answer, nothing else
    happening in between. *)
Definition submit (o : network_outcome) (w : world) : world :=
  settle (next_id w) o (handleAnalyze w).

(** [handleWordClick(wordData)] likewise. *)
Definition selectWord (wordData : jsval) (o : network_outcome) (w : world) : world :=
  settle (next_id w) o (handleWordClick wordData w).

End EventLoop.

(** ** Notions the properties are stated with *)

Section Notions.
Context `{Engine}.

(** The request [handleAnalyze] sends. *)
Definition analysis_request (text : string) : request :=
  {| url := API_URL ++ "/api/process-text";
     method := "POST";
     headers := [("Content-Type", "application/json")];
     body := Some (JObj {[ "text" := JStr text ]}) |}.

(** Failure of an analysis: the [catch] block, then [finally]. *)
Definition analysis_failed (err : exn) (w : world) : world :=
  setIsLoading false
    (setError (Some ("Failed to process text: " ++ message err))
       (log (ConsoleError "Error:" err) w)).

(** The test [data.words && data.words.length > 0]. *)
Definition has_words (words : jsval) : completion bool :=
  if ToBoolean words then cbind (GetLength words) GreaterThanZero else Normal false.

(** The span an annotation with importance [bucket] is rendered as. *)
Definition expected_span (ann : gmap string jsval) (bucket : N) : word_span :=
  {| className := "word importance-" ++ decimal bucket;
     opacity := default JUndefined (ann !! "opacity");
     onClick := JObj ann;
     label := default JUndefined (ann !! "word") |}.

Definition in_bucket (ann : gmap string jsval) (bucket : N) : Prop :=
  ann !! "importance" = Some (JNum (number_of_N bucket)) ∧ (bucket ≤ 4)%N.

(** The request [handleWordClick] sends for a word. *)
Definition translation_request (word : string) : request :=
  {| url := API_URL ++ "/api/translate/word/" ++ encodeURIComponent word;
     method := "GET"; headers := []; body := None |}.

(** The translation call is rejected: the promise of [fetch] or of
    [response.json()] that a parked click waits for settles with an error.
    An answer with a status outside 2xx is no rejection. *)
Definition translation_rejected (w : world) (e : event) (err : exn) : Prop :=
  match e with
  | FetchSettled id (Throw err') =>
      err' = err ∧ ∃ wordData, pending w !! id = Some (TranslateFetch wordData)
  | JsonSettled id (Throw err') =>
      err' = err ∧ ∃ wordData, pending w !! id = Some (TranslateJson wordData)
  | _ => False
  end.

(** The field [key] of an object, [undefined] when it has none. *)
Definition field (props : gmap string jsval) (key : string) : jsval :=
  default JUndefined (props !! key).

(** The pairs shown for the example sentences [exs]. *)
Definition example_pairs (exs : list (gmap string jsval)) : list (jsval * jsval) :=
  (λ ex, (field ex "english", field ex "hebrew")) <$> exs.

(** A parked stretch of [handleAnalyze]. *)
Definition is_analysis (t : task) : bool :=
  match t with
  | AnalyzeFetch | AnalyzeJson => true
  | _ => false
  end.

Definition analysis_parked (w : world) (id : nat) : Prop :=
  ∃ t, pending w !! id = Some t ∧ is_analysis t = true.

(** While loading exactly one analysis is under way, otherwise none. *)
Definition single_flight (w : world) : Prop :=
  if isLoading (ui w) then
    ∃ id, analysis_parked w id ∧ ∀ id', analysis_parked w id' → id' = id
  else ∀ id, ¬ analysis_parked w id.



(** The stored words are those of the start or passed the test of
    [handleAnalyze]. *)
Definition words_checked (w : world) : Prop :=
  processedWords (ui w) = JArr [] ∨ has_words (processedWords (ui w)) = Normal true.

End Notions.

(** ** An engine to run the component on

    Numbers are the integers and NaN, printed and compared as the language
    does.  A string is read as a number when it is a decimal integer; the
    other numerals of the language (fractions, exponents, radix prefixes,
    Infinity) have no number here and read as NaN.  Error texts follow V8,
    which names the whole callee where [NotAFunction] has the method. *)

Definition int_to_string (x : option Z) : string :=
  match x with
  | None => "NaN"
  | Some z => if (z <? 0)%Z then "-" ++ decimal (Z.to_N (- z)) else decimal (Z.to_N z)
  end.

Fixpoint digits_value (s : string) (acc : N) : option N :=
  match s with
  | EmptyString => Some acc
  | String c rest =>
      let n := N_of_ascii c in
      if (48 <=? n)%N && (n <=? 57)%N then digits_value rest (acc * 10 + (n - 48))%N
      else None
  end.

Definition string_to_int (s : string) : option Z :=
  match trim s with
  | EmptyString => Some 0%Z
  | String "-" (String c rest) => (λ n, (- Z.of_N n)%Z) <$> digits_value (String c rest) 0
  | String "+" (String c rest) => Z.of_N <$> digits_value (String c rest) 0
  | digits => Z.of_N <$> digits_value digits 0
  end.

Definition v8_message (why : type_error) : string :=
  match why with
  | ReadOfNullish is_null key =>
      "Cannot read properties of " ++ (if is_null then "null" else "undefined")
      ++ " (reading '" ++ key ++ "')"
  | NotAFunction key => key ++ " is not a function"
  | NoPrimitiveValue => "Cannot convert object to primitive value"
  end.

Lemma int_to_string_of_N (n : N) :
  (n < 2 ^ 53)%N → int_to_string (Some (Z.of_N n)) = decimal n.
Proof.
  intros _. unfold int_to_string.
  destruct (Z.ltb_spec (Z.of_N n) 0); [lia|]. by rewrite N2Z.id.
Qed.

Lemma int_positive_of_N (n : N) : (0 <? Z.of_N n)%Z = (0 <? n)%N.
Proof. destruct (N.ltb_spec 0 n), (Z.ltb_spec 0 (Z.of_N n)); lia. Qed.

Definition integer_engine : Engine := {|
  number := option Z;
  NumberToString := int_to_string;
  NumberToBoolean x := match x with Some z => negb (z =? 0)%Z | None => false end;
  NumberIsPositive x := match x with Some z => (0 <? z)%Z | None => false end;
  StringToNumber := string_to_int;
  number_of_N n := Some (Z.of_N n);
  TypeErrorMessage := v8_message;
  VITE_API_URL := None;
  NumberToString_of_N := int_to_string_of_N;
  NumberIsPositive_of_N := int_positive_of_N;
|}.

(** ** Sample data *)

Section Samples.
#[local] Existing Instance integer_engine.

Definition cat : gmap string jsval :=
  {[ "word" := JStr "cat"; "importance" := JNum (Some 4%Z); "opacity" := JNum (Some 1%Z) ]}.

Definition sat : gmap string jsval :=
  {[ "word" := JStr "sat"; "importance" := JNum (Some 2%Z); "opacity" := JNum (Some 1%Z) ]}.

Definition chatul : jsval :=
  JObj {[ "translation" := JStr "chatul"; "cefr_level" := JStr "A1" ]}.

(** The text is typed and analysed, and the service returns two words. *)
Definition analysed : world :=
  run initial_world
    [Change "cat sat "; ClickAnalyze;
     FetchSettled 0 (Normal (Response 200));
     JsonSettled 1 (Normal (JObj {[ "words" := JArr [JObj cat; JObj sat] ]}))].

(** Then the first word is clicked. *)
Definition clicked : world := run analysed [ClickWord 0].

(** A text is typed, nothing else. *)
Definition typed : world := run initial_world [Change " cat "].

Definition chatul_fields : gmap string jsval :=
  {[ "translation" := JStr "chatul"; "cefr_level" := JStr "A1" ]}.

(** The body of an answer that reports a failure. *)
Definition not_found : gmap string jsval := {[ "error" := JStr "Word not found" ]}.

(** An annotation without its word. *)
Definition nameless : gmap string jsval := {[ "importance" := JNum (Some 4%Z) ]}.

(** A selection with an example sentence. *)
Definition glossed : gmap string jsval :=
  {[ "word" := JStr "cat";
     "example_sentences" :=
       JArr [JObj {[ "english" := JStr "The cat sat."; "hebrew" := JStr "hechatul yashav" ]}] ]}.

Definition glossed_open : state :=
  {| inputText := ""; processedWords := JArr []; isLoading := false; error := None;
     selectedWord := JObj glossed; sidebarOpen := true |}.

End Samples.

(** * Properties *)

Section Properties.
Context `{Engine}.
Implicit Types (w : world) (o : network_outcome) (v : jsval).

(** ** Bookkeeping of parked handlers *)

Lemma wf_initial_world : wf initial_world.
Proof. apply map_Forall_empty. Qed.

Lemma wf_fresh w id : wf w → (next_id w ≤ id)%nat → pending w !! id = None.
Proof.
  intros Hwf Hle. destruct (pending w !! id) as [t|] eqn:E; [|done].
  apply Hwf in E. simpl in E. lia.
Qed.

Lemma wf_suspend t w : wf w → wf (suspend t w).
Proof.
  intros Hwf. unfold wf, suspend; simpl.
  apply map_Forall_insert_2; [lia|].
  eapply map_Forall_impl; [exact Hwf|]. simpl. intros; lia.
Qed.

Lemma wf_resume id w : wf w → wf (resume id w).
Proof. intros Hwf. unfold wf, resume; simpl. by apply map_Forall_delete. Qed.

(** ** Blank input *)

Lemma trimStart_blank (s : string) : trimStart s = "" ↔ whitespace_only s = true.
Proof.
  induction s as [|c rest IH]; simpl; [done|].
  destruct (is_white_space c); simpl; [done|]. split; discriminate.
Qed.

Lemma trimStart_head (s : string) :
  trimStart s = "" ∨ whitespace_only (trimStart s) = false.
Proof.
  induction s as [|c rest IH]; simpl; [by left|].
  destruct (is_white_space c) eqn:Hc; [done|]. right. simpl. by rewrite Hc.
Qed.

Lemma whitespace_only_rev_app (s acc : string) :
  whitespace_only (String.rev_app s acc) = whitespace_only s && whitespace_only acc.
Proof.
  revert acc. induction s as [|c rest IH]; intros acc; simpl; [done|].
  rewrite IH. simpl. by destruct (is_white_space c), (whitespace_only rest).
Qed.

Lemma rev_app_empty (s acc : string) : String.rev_app s acc = "" → s = "" ∧ acc = "".
Proof.
  revert acc. induction s as [|c rest IH]; intros acc; simpl; [done|].
  intros Hrev. by apply IH in Hrev as [_ ?].
Qed.

(** The guard of [handleAnalyze] fires on the empty text and on the texts
    made of white space, and on no other. *)
Lemma trim_blank (s : string) : trim s = "" ↔ whitespace_only s = true.
Proof.
  rewrite <- trimStart_blank. unfold trim, trimEnd, String.rev. split.
  - intros Hrev. apply rev_app_empty in Hrev as [Hrev _].
    apply trimStart_blank in Hrev. rewrite whitespace_only_rev_app in Hrev.
    destruct (trimStart_head s) as [?|Hhead]; [done|].
    rewrite Hhead in Hrev. done.
  - by intros ->.
Qed.

Lemma nonblank_truthy (text : string) :
  trim text ≠ "" → negb (ToBoolean (JStr (trim text))) = false.
Proof.
  intros Hne. simpl. destruct (String.eqb_spec (trim text) ""); [done|done].
Qed.

Lemma blank_falsy (text : string) :
  trim text = "" → negb (ToBoolean (JStr (trim text))) = true.
Proof. intros ->. done. Qed.

Lemma handleAnalyze_nonblank w :
  trim (inputText (ui w)) ≠ "" →
  handleAnalyze w =
    suspend AnalyzeFetch
      (fetch (analysis_request (inputText (ui w)))
         (log (ConsoleLog "Sending request to:" (JStr (API_URL ++ "/api/process-text")))
            (setError None (setIsLoading true w)))).
Proof.
  intros Hne. unfold handleAnalyze. rewrite nonblank_truthy by done. reflexivity.
Qed.

Lemma handleAnalyze_blank w :
  trim (inputText (ui w)) = "" →
  handleAnalyze w = setError (Some "Please enter some text to analyze") w.
Proof. intros Hb. unfold handleAnalyze. by rewrite blank_falsy. Qed.

Ltac run_segment :=
  unfold handleAnalyze_fetched, handleAnalyze_parsed, handleAnalyze_try,
    handleWordClick, handleWordClick_fetched, handleWordClick_parsed,
    handleWordClick_try, try_catch_finally, mbind, M_bind, mret, M_ret,
    lift, throw, act;
  simpl.

Lemma handleAnalyze_fetched_throw err w :
  handleAnalyze_fetched (Throw err) w = analysis_failed err w.
Proof. reflexivity. Qed.

Lemma handleAnalyze_fetched_not_ok r w :
  ok r = false →
  handleAnalyze_fetched (Normal r) w =
    analysis_failed
      (Error ("Server error: " ++ NumberToString (number_of_N (status r)))) w.
Proof. intros Hok. run_segment. by rewrite Hok. Qed.

Lemma handleAnalyze_fetched_ok r w :
  ok r = true → handleAnalyze_fetched (Normal r) w = suspend AnalyzeJson w.
Proof. intros Hok. run_segment. by rewrite Hok. Qed.

Lemma handleAnalyze_parsed_throw err w :
  handleAnalyze_parsed (Throw err) w = analysis_failed err w.
Proof. reflexivity. Qed.

Lemma handleAnalyze_parsed_normal data w :
  handleAnalyze_parsed (Normal data) w =
    let w' := log (ConsoleLog "Received data:" data) w in
    match cbind (Get data "words") (λ words, cbind (has_words words) (λ b, Normal (words, b))) with
    | Throw err => analysis_failed err w'
    | Normal (words, true) => setIsLoading false (setError None (setProcessedWords words w'))
    | Normal (words, false) =>
        setIsLoading false (setError (Some "No words returned from server") w')
    end.
Proof.
  run_segment. destruct (Get data "words") as [words|err]; simpl; [|done].
  unfold has_words. destruct (ToBoolean words); simpl; [|done].
  destruct (cbind (GetLength words) GreaterThanZero) as [[]|]; done.
Qed.

Lemma submit_rejected w err :
  wf w → trim (inputText (ui w)) ≠ "" →
  submit (Rejected err) w = analysis_failed err (resume (next_id w) (handleAnalyze w)).
Proof.
  intros Hwf Hne. unfold submit, settle, step.
  rewrite handleAnalyze_nonblank by done. simpl.
  by rewrite lookup_insert_eq.
Qed.

Lemma submit_not_ok w r parsed :
  wf w → trim (inputText (ui w)) ≠ "" → ok r = false →
  submit (Answered r parsed) w =
    analysis_failed (Error ("Server error: " ++ NumberToString (number_of_N (status r))))
      (resume (next_id w) (handleAnalyze w)).
Proof.
  intros Hwf Hne Hok. unfold submit, settle.
  rewrite handleAnalyze_nonblank by done.
  unfold step at 2. simpl. rewrite lookup_insert_eq.
  rewrite handleAnalyze_fetched_not_ok by done.
  unfold step. simpl. rewrite delete_insert_id by (apply wf_fresh; [done|lia]).
  rewrite wf_fresh; [done|done|lia].
Qed.

Lemma submit_ok w r parsed :
  wf w → trim (inputText (ui w)) ≠ "" → ok r = true →
  submit (Answered r parsed) w =
    handleAnalyze_parsed parsed
      (resume (S (next_id w)) (suspend AnalyzeJson (resume (next_id w) (handleAnalyze w)))).
Proof.
  intros Hwf Hne Hok. unfold submit, settle.
  rewrite handleAnalyze_nonblank by done.
  unfold step at 2. simpl. rewrite lookup_insert_eq.
  rewrite handleAnalyze_fetched_ok by done.
  unfold step. simpl. by rewrite lookup_insert_eq.
Qed.

Lemma submit_blank w o :
  wf w → trim (inputText (ui w)) = "" → submit o w = handleAnalyze w.
Proof.
  intros Hwf Hb. unfold submit, settle. rewrite handleAnalyze_blank by done.
  assert (Hfree : pending w !! next_id w = None) by (apply wf_fresh; [done|lia]).
  destruct o as [err|r parsed]; unfold step; simpl; rewrite Hfree; [done|].
  simpl. by rewrite Hfree.
Qed.

Lemma submit_completes w o : wf w → pending (submit o w) = pending w.
Proof.
  intros Hwf. destruct (decide (trim (inputText (ui w)) = "")) as [Hb|Hne].
  { rewrite submit_blank by done. by rewrite handleAnalyze_blank. }
  assert (Hfree : pending w !! next_id w = None) by (apply wf_fresh; [done|lia]).
  assert (Hpark : pending (resume (next_id w) (handleAnalyze w)) = pending w).
  { rewrite handleAnalyze_nonblank by done. simpl. by apply delete_insert_id. }
  destruct o as [err|r parsed].
  { by rewrite submit_rejected. }
  destruct (ok r) eqn:Hok; [|by rewrite submit_not_ok].
  rewrite submit_ok by done.
  assert (Hpark' : pending (resume (S (next_id w))
      (suspend AnalyzeJson (resume (next_id w) (handleAnalyze w)))) = pending w).
  { rewrite handleAnalyze_nonblank by done. simpl.
    rewrite (delete_insert_id (pending w)) by done.
    apply delete_insert_id, wf_fresh; [done|lia]. }
  destruct parsed as [data|err]; [|done].
  rewrite handleAnalyze_parsed_normal. simpl.
  destruct (cbind _ _) as [[words []]|err]; done.
Qed.

Lemma submit_error_frame w o :
  wf w → error (ui (submit o w)) ≠ None →
  processedWords (ui (submit o w)) = processedWords (ui w).
Proof.
  intros Hwf Herr.
  destruct (decide (trim (inputText (ui w)) = "")) as [Hb|Hne].
  { rewrite submit_blank by done. by rewrite handleAnalyze_blank. }
  revert Herr. destruct o as [err|r parsed].
  { rewrite submit_rejected by done. by rewrite handleAnalyze_nonblank. }
  destruct (ok r) eqn:Hok.
  2: { rewrite submit_not_ok by done. by rewrite handleAnalyze_nonblank. }
  rewrite submit_ok by done. rewrite handleAnalyze_nonblank by done.
  destruct parsed as [data|err]; [|done].
  rewrite handleAnalyze_parsed_normal. simpl.
  destruct (cbind _ _) as [[words []]|err]; done.
Qed.

Lemma render_results_words (s s' : state) :
  processedWords s = processedWords s' → render_results s = render_results s'.
Proof. intros Heq. unfold render_results. by rewrite Heq. Qed.

(** ** The claims about [handleAnalyze] *)

(** C3: when the input buffer is empty or only whitespace once trimmed,
    submit() sends nothing over the network, parks nothing, and sets the
    error message to exactly "Please enter some text to analyze". *)
Theorem blank_input_rejected w :
  trim (inputText (ui w)) = "" →
  network (handleAnalyze w) = network w ∧
  pending (handleAnalyze w) = pending w ∧
  error (ui (handleAnalyze w)) = Some "Please enter some text to analyze".
Proof. intros Hb. by rewrite handleAnalyze_blank. Qed.

(** C8: on an input that is not blank, submit() sets the status to loading,
    clears the error, and sends exactly one request: a POST to the analysis
    endpoint whose body is [{ text: inputText }], the buffer as it is, not
    its trimmed text. *)
Theorem valid_input_sends_request w :
  trim (inputText (ui w)) ≠ "" →
  isLoading (ui (handleAnalyze w)) = true ∧
  error (ui (handleAnalyze w)) = None ∧
  network (handleAnalyze w) =
    {| url := API_URL ++ "/api/process-text";
       method := "POST";
       headers := [("Content-Type", "application/json")];
       body := Some (JObj {[ "text" := JStr (inputText (ui w)) ]}) |} :: network w ∧
  pending (handleAnalyze w) = <[next_id w := AnalyzeFetch]> (pending w).
Proof. intros Hne. by rewrite handleAnalyze_nonblank. Qed.

(** C9: a submit() that passed the input check leaves the loading status
    cleared once it has run to its end, whatever the network answered:
    a rejected fetch, a status outside 2xx, a body that does not parse, a
    body without words, or a word list. *)
Theorem loading_cleared w o :
  wf w → trim (inputText (ui w)) ≠ "" →
  isLoading (ui (submit o w)) = false ∧ pending (submit o w) = pending w.
Proof.
  intros Hwf Hne. split; [|by apply submit_completes].
  destruct o as [err|r parsed].
  { by rewrite submit_rejected. }
  destruct (ok r) eqn:Hok; [|by rewrite submit_not_ok].
  rewrite submit_ok by done. destruct parsed as [data|err]; [|done].
  rewrite handleAnalyze_parsed_normal. simpl.
  destruct (cbind _ _) as [[words []]|err]; done.
Qed.

(** C10: a submit() that ends with an error message set leaves the stored
    words as they were, so the word list of an earlier analysis is rendered
    as before. *)
Theorem failed_submit_keeps_words w o :
  wf w → error (ui (submit o w)) ≠ None →
  processedWords (ui (submit o w)) = processedWords (ui w) ∧
  render_results (ui (submit o w)) = render_results (ui w).
Proof.
  intros Hwf Herr. pose proof (submit_error_frame w o Hwf Herr) as Hkeep.
  split; [done|]. by apply render_results_words.
Qed.

(** C4: when the analysis endpoint answers with a status code outside
    200..299, the error message is exactly "Failed to process text: Server
    error: " followed by the decimal digits of the code. *)
Theorem server_error_message w r parsed :
  wf w → trim (inputText (ui w)) ≠ "" → ok r = false → (status r < 2 ^ 16)%N →
  error (ui (submit (Answered r parsed) w)) =
    Some ("Failed to process text: Server error: " ++ decimal (status r)).
Proof.
  intros Hwf Hne Hok Hshort. rewrite submit_not_ok by done. simpl.
  rewrite NumberToString_of_N; [done|].
  eapply N.lt_trans; [exact Hshort|]. by vm_compute.
Qed.

(** C1, amended: when the analysis succeeds with a body whose [words] is
    missing or an empty array, the error message becomes exactly "No words
    returned from server" and the stored words are left as they were: no
    word list is rendered if none was stored before the call, and the list
    of an earlier analysis is rendered as before. *)
Theorem empty_words_reported w r (body : gmap string jsval) :
  wf w → trim (inputText (ui w)) ≠ "" → ok r = true →
  body !! "words" = None ∨ body !! "words" = Some (JArr []) →
  let w' := submit (Answered r (Normal (JObj body))) w in
  error (ui w') = Some "No words returned from server" ∧
  processedWords (ui w') = processedWords (ui w) ∧
  render_results (ui w') = render_results (ui w) ∧
  (processedWords (ui w) = JArr [] → render_results (ui w') = Normal None).
Proof.
  intros Hwf Hne Hok Hwords w'.
  assert (Herr : error (ui w') = Some "No words returned from server").
  { subst w'. rewrite submit_ok by done. rewrite handleAnalyze_parsed_normal.
    simpl. destruct Hwords as [-> | ->]; simpl; [done|].
    by rewrite NumberIsPositive_of_N. }
  assert (Hkeep : processedWords (ui w') = processedWords (ui w)).
  { apply submit_error_frame; [done|]. fold w'. by rewrite Herr. }
  pose proof (render_results_words _ _ Hkeep) as Hsame.
  repeat split; [done..|].
  intros Hnone. rewrite Hsame. unfold render_results. rewrite Hnone. simpl.
  by rewrite NumberIsPositive_of_N.
Qed.

(** ** The claim about the word list *)

Lemma render_word_annotation ann bucket :
  in_bucket ann bucket → render_word (JObj ann) = Normal (expected_span ann bucket).
Proof.
  intros [Himp Hle]. unfold render_word. simpl. rewrite Himp. simpl.
  rewrite NumberToString_of_N; [done|].
  eapply N.le_lt_trans; [exact Hle|]. by vm_compute.
Qed.

Lemma traverse_render_word anns buckets :
  Forall2 in_bucket anns buckets →
  traverse render_word (JObj <$> anns) = Normal (zip_with expected_span anns buckets).
Proof.
  induction 1 as [|ann bucket anns buckets Hin _ IH]; [done|].
  cbn [fmap list_fmap traverse zip_with].
  rewrite (render_word_annotation ann bucket) by done.
  fold (fmap (M:=list) JObj anns). rewrite IH. done.
Qed.

(** C7: every non-empty stored sequence of annotations is rendered as one
    span per annotation, in order; the span's opacity is the annotation's
    [opacity] field as received, whatever its importance, its class is
    "word importance-" followed by the importance (one of 0..4), and a click
    on it selects that annotation. *)
Theorem words_rendered_as_received w (anns : list (gmap string jsval)) (buckets : list N) :
  processedWords (ui w) = JArr (JObj <$> anns) → anns ≠ [] →
  Forall2 in_bucket anns buckets →
  render_results (ui w) = Normal (Some (zip_with expected_span anns buckets)) ∧
  (∀ i ann side,
     render_sidebar (ui w) = Normal side → anns !! i = Some ann →
     step w (ClickWord i) = handleWordClick (JObj ann) w).
Proof.
  intros Hwords Hne Hin.
  assert (Hres : render_results (ui w) = Normal (Some (zip_with expected_span anns buckets))).
  { unfold render_results. rewrite Hwords. simpl.
    rewrite NumberIsPositive_of_N.
    destruct anns as [|ann anns]; [done|]. simpl N.ltb. cbv iota.
    by rewrite (traverse_render_word _ buckets). }
  split; [done|]. intros i ann side Hside Hi.
  unfold step, render. rewrite Hres, Hside. simpl.
  apply Forall2_lookup_l with (i := i) (x := ann) in Hin as (bucket & Hb & _); [|done].
  rewrite lookup_zip_with, Hi. simpl. by rewrite Hb.
Qed.

(** ** The claims about the detail panel *)

Lemma handleWordClick_cases wordData w :
  handleWordClick wordData w =
    let w' := setSidebarOpen true (setSelectedWord wordData w) in
    match cbind (Get wordData "word") ToString with
    | Normal word => suspend (TranslateFetch wordData) (fetch (translation_request word) w')
    | Throw err => log (ConsoleError "Translation error:" err) w'
    end.
Proof.
  run_segment. destruct (Get wordData "word") as [word|err]; simpl; [|done].
  by destruct (ToString word).
Qed.

Lemma handleWordClick_selects wordData w :
  selectedWord (ui (handleWordClick wordData w)) = wordData ∧
  sidebarOpen (ui (handleWordClick wordData w)) = true.
Proof.
  rewrite handleWordClick_cases. simpl. by destruct (cbind _ _).
Qed.

Lemma handleWordClick_next_id wordData w :
  (next_id w ≤ next_id (handleWordClick wordData w))%nat.
Proof.
  rewrite handleWordClick_cases. simpl. destruct (cbind _ _); simpl; lia.
Qed.

Lemma handleWordClick_keeps wordData w id t :
  (id < next_id w)%nat → pending w !! id = Some t →
  pending (handleWordClick wordData w) !! id = Some t.
Proof.
  intros Hlt Hid. rewrite handleWordClick_cases. simpl.
  destruct (cbind _ _); simpl; [|done]. rewrite lookup_insert_ne by lia. done.
Qed.

(** The status of the translation response is not looked at. *)
Remark translation_status_ignored wordData r w :
  handleWordClick_fetched wordData (Normal r) w = suspend (TranslateJson wordData) w.
Proof. reflexivity. Qed.

(** A translation that arrives for a parked click replaces the selection. *)
Lemma translation_arrives w id wordData r data :
  pending w !! id = Some (TranslateFetch wordData) →
  selectedWord (ui (settle id (Answered r (Normal data)) w)) = spread2 wordData data.
Proof.
  intros Hid. unfold settle. unfold step at 2. rewrite Hid.
  unfold step. run_segment. by rewrite lookup_insert_eq.
Qed.

(** An answer is merged whatever its status, and nothing is logged. *)
Lemma translation_status_unchecked w id wordData r data :
  pending w !! id = Some (TranslateFetch wordData) →
  selectedWord (ui (settle id (Answered r (Normal data)) w)) = spread2 wordData data ∧
  console (settle id (Answered r (Normal data)) w) = console w.
Proof.
  intros Hid. split; [by apply translation_arrives|].
  unfold settle. unfold step at 2. rewrite Hid.
  unfold step. run_segment. by rewrite lookup_insert_eq.
Qed.

(** C2: selectWord(annotation) at once makes the annotation the selection
    and opens the panel.  When the translation it asked for arrives, the
    selection becomes the shallow merge of that annotation with the
    response, the fields of the response winning, whatever is selected by
    then: if another word was selected in between, the late response
    overwrites that newer selection. *)
Theorem stale_translation_overwrites w a b (word : string) r data :
  cbind (Get a "word") ToString = Normal word →
  let w1 := handleWordClick a w in
  selectedWord (ui w1) = a ∧ sidebarOpen (ui w1) = true ∧
  network w1 = translation_request word :: network w ∧
  selectedWord (ui (selectWord a (Answered r (Normal data)) w)) =
    JObj (spread data ∪ spread a) ∧
  (∀ key, (spread data ∪ spread a) !! key =
          match spread data !! key with
          | Some v => Some v
          | None => spread a !! key
          end) ∧
  let w2 := handleWordClick b w1 in
  selectedWord (ui w2) = b ∧
  selectedWord (ui (settle (next_id w) (Answered r (Normal data)) w2)) =
    JObj (spread data ∪ spread a).
Proof.
  intros Hword w1.
  assert (Hw1 : w1 = suspend (TranslateFetch a)
            (fetch (translation_request word)
               (setSidebarOpen true (setSelectedWord a w)))).
  { subst w1. rewrite handleWordClick_cases. simpl. by rewrite Hword. }
  assert (Hparked : pending w1 !! next_id w = Some (TranslateFetch a)).
  { rewrite Hw1. simpl. apply lookup_insert_eq. }
  repeat split.
  - by rewrite Hw1.
  - by rewrite Hw1.
  - by rewrite Hw1.
  - by apply translation_arrives.
  - intros key. rewrite lookup_union. by destruct (spread data !! key), (spread a !! key).
  - apply handleWordClick_selects.
  - apply translation_arrives. apply handleWordClick_keeps; [|done].
    rewrite Hw1. simpl. lia.
Qed.

(** X20: when the promise of [fetch] or of [response.json()] that a click
    waits for is rejected, the rejection is logged on the console and
    nothing else happens: the React state is the same after it as before,
    so the selection has no translation merged in, no error message is set
    and the panel is as visible as it was; nothing more is sent or awaited. *)
Theorem rejected_translation_only_logged w e err :
  translation_rejected w e err →
  ui (step w e) = ui w ∧
  selectedWord (ui (step w e)) = selectedWord (ui w) ∧
  error (ui (step w e)) = error (ui w) ∧
  sidebarOpen (ui (step w e)) = sidebarOpen (ui w) ∧
  render_sidebar (ui (step w e)) = render_sidebar (ui w) ∧
  console (step w e) = ConsoleError "Translation error:" err :: console w ∧
  network (step w e) = network w ∧
  (∀ id t, pending (step w e) !! id = Some t → pending w !! id = Some t).
Proof.
  intros Hfail.
  assert (Hstep : ∃ id, step w e = log (ConsoleError "Translation error:" err) (resume id w)).
  { destruct e as [| | | |id [?|err']|id [?|err']| |]; try done;
      destruct Hfail as [-> [wordData Hid]]; exists id; unfold step; by rewrite Hid. }
  destruct Hstep as [id ->]. simpl. repeat split.
  intros id' t Hid'. by apply lookup_delete_Some in Hid' as [_ ?].
Qed.

(** C5: close() hides the panel at once and leaves the selection in place;
    the selection is cleared to null by a timer that is due 300 ms later:
    fired before that it does nothing, fired from then on it clears. *)
Theorem close_defers_clear w (elapsed : N) :
  let w1 := closeSidebar w in
  let w2 := step w1 (Elapse elapsed) in
  sidebarOpen (ui w1) = false ∧
  render_sidebar (ui w1) = Normal None ∧
  selectedWord (ui w1) = selectedWord (ui w) ∧
  pending w1 !! next_id w = Some (Timeout (now w + 300)) ∧
  selectedWord (ui w2) = selectedWord (ui w) ∧
  ((elapsed < 300)%N → step w2 (TimerFired (next_id w)) = w2) ∧
  ((300 ≤ elapsed)%N →
     selectedWord (ui (step w2 (TimerFired (next_id w)))) = JNull ∧
     sidebarOpen (ui (step w2 (TimerFired (next_id w)))) = false).
Proof.
  intros w1 w2. subst w1 w2. unfold closeSidebar. simpl.
  rewrite lookup_insert_eq. repeat split.
  - intros Hlt. by destruct (N.leb_spec (now w + 300) (now w + elapsed)); [lia|].
  - destruct (N.leb_spec (now w + 300) (now w + elapsed)); [done|lia].
  - destruct (N.leb_spec (now w + 300) (now w + elapsed)); [done|lia].
Qed.

(** ** The invariant of the loop *)

(** Every turn of the loop keeps the ids in order, so every world the loop
    reaches from the start is well formed. *)
Lemma wf_frame w w' :
  pending w' = pending w → next_id w' = next_id w → wf w → wf w'.
Proof. unfold wf. by intros -> ->. Qed.

Lemma wf_handleAnalyze w : wf w → wf (handleAnalyze w).
Proof.
  intros Hwf. unfold handleAnalyze.
  destruct (negb (ToBoolean (JStr (trim (inputText (ui w)))))); [done|].
  by apply wf_suspend.
Qed.

Lemma wf_handleWordClick wordData w : wf w → wf (handleWordClick wordData w).
Proof.
  intros Hwf. rewrite handleWordClick_cases. simpl.
  destruct (cbind _ _); [by apply wf_suspend|done].
Qed.

Lemma wf_step w e : wf w → wf (step w e).
Proof.
  intros Hwf. destruct e as [value| |index| |id r|id r|id|ms]; unfold step.
  - by destruct (render (ui w)).
  - destruct (render (ui w)) as [v|]; [|done].
    destruct (analyze_disabled v); [done|by apply wf_handleAnalyze].
  - destruct (render (ui w)) as [v|]; [|done].
    destruct (results v ≫= _); [by apply wf_handleWordClick|done].
  - destruct (render (ui w)) as [v|]; [|done].
    destruct (sidebar v); [by apply wf_suspend|done].
  - destruct (pending w !! id) as [[| |wordData| |]|]; try done.
    + apply wf_resume with (id := id) in Hwf. revert Hwf. generalize (resume id w).
      intros w0 Hwf. destruct r as [r|err]; [|done].
      destruct (ok r) eqn:Hok.
      * rewrite handleAnalyze_fetched_ok by done. by apply wf_suspend.
      * by rewrite handleAnalyze_fetched_not_ok.
    + apply wf_resume with (id := id) in Hwf. revert Hwf. generalize (resume id w).
      intros w0 Hwf. destruct r as [r|err]; [by apply wf_suspend|done].
  - destruct (pending w !! id) as [[| |wordData|wordData|]|]; try done.
    + apply wf_resume with (id := id) in Hwf. revert Hwf. generalize (resume id w).
      intros w0 Hwf. destruct r as [data|err]; [|done].
      rewrite handleAnalyze_parsed_normal. simpl.
      by destruct (cbind _ _) as [[words []]|err].
    + apply wf_resume with (id := id) in Hwf. revert Hwf. generalize (resume id w).
      intros w0 Hwf. by destruct r as [data|err].
  - destruct (pending w !! id) as [[| | | |due]|]; try done.
    destruct (due <=? now w)%N; [by apply (wf_resume id)|done].
  - done.
Qed.

Lemma wf_run es w : wf w → wf (run w es).
Proof.
  revert w. induction es as [|e es IH]; intros w Hwf; [done|].
  apply IH. by apply wf_step.
Qed.

End Properties.

(** * The component at work *)

Section Examples.
#[local] Existing Instance integer_engine.

Lemma wf_typed : wf typed.
Proof. apply wf_run, wf_initial_world. Qed.

Lemma wf_analysed : wf analysed.
Proof. apply wf_run, wf_initial_world. Qed.

Example analysed_state :
  ui analysed =
    {| inputText := "cat sat "; processedWords := JArr [JObj cat; JObj sat];
       isLoading := false; error := None; selectedWord := JNull;
       sidebarOpen := false |}.
Proof. reflexivity. Qed.

(** One span per word, the most important one in the class of bucket 4. *)
Example analysed_view :
  render_results (ui analysed) =
    Normal (Some [ {| className := "word importance-4"; opacity := JNum (Some 1%Z);
                      onClick := JObj cat; label := JStr "cat" |};
                   {| className := "word importance-2"; opacity := JNum (Some 1%Z);
                      onClick := JObj sat; label := JStr "sat" |} ]).
Proof. reflexivity. Qed.

Example clicked_state :
  selectedWord (ui clicked) = JObj cat ∧ sidebarOpen (ui clicked) = true ∧
  pending clicked = {[ 2%nat := TranslateFetch (JObj cat) ]} ∧
  url <$> network clicked =
    ["http://localhost:5000/api/translate/word/cat";
     "http://localhost:5000/api/process-text"].
Proof. repeat split. Qed.

(** The panel first shows what is known and a placeholder, then the
    translation once it has arrived. *)
Example panel_before_translation :
  render_sidebar (ui clicked) =
    Normal (Some {| word_title := JStr "cat";
                    hebrew_text := JStr placeholder_loading;
                    transliteration := JStr "";
                    importance := JNum (Some 4%Z);
                    cefr_className := "cefr-badge cefr-B1";
                    cefr_badge := JStr "B1";
                    root := JStr "Unknown";
                    examples := None;
                    note := None |}).
Proof. reflexivity. Qed.

Example panel_after_translation :
  render_sidebar (ui (settle 2 (Answered (Response 200) (Normal chatul)) clicked)) =
    Normal (Some {| word_title := JStr "cat";
                    hebrew_text := JStr "chatul";
                    transliteration := JStr "";
                    importance := JNum (Some 4%Z);
                    cefr_className := "cefr-badge cefr-A1";
                    cefr_badge := JStr "A1";
                    root := JStr "Unknown";
                    examples := None;
                    note := None |}).
Proof. reflexivity. Qed.

(** The answer for "cat" arrives after "sat" was selected: the panel shows
    "cat" again. *)
Example late_translation_wins :
  Get (selectedWord
         (ui (settle 2 (Answered (Response 200) (Normal chatul))
                (step clicked (ClickWord 1))))) "word" = Normal (JStr "cat") ∧
  selectedWord (ui (step clicked (ClickWord 1))) = JObj sat.
Proof. split; reflexivity. Qed.

(** The body is the text as typed. *)
Example request_body_untrimmed :
  body <$> network (handleAnalyze typed) = [Some (JObj {[ "text" := JStr " cat " ]})] ∧
  trim " cat " = "cat".
Proof. split; reflexivity. Qed.

Lemma blank_input_rejected_witness :
  trim (inputText (ui (setInputText "   " initial_world))) = "" ∧
  network (handleAnalyze (setInputText "   " initial_world)) = [] ∧
  pending (handleAnalyze (setInputText "   " initial_world)) = ∅ ∧
  error (ui (handleAnalyze (setInputText "   " initial_world))) =
    Some "Please enter some text to analyze".
Proof.
  split; [reflexivity|].
  apply (blank_input_rejected (setInputText "   " initial_world)). reflexivity.
Defined.

Lemma valid_input_sends_request_witness :
  trim (inputText (ui typed)) ≠ "" ∧
  isLoading (ui (handleAnalyze typed)) = true ∧
  error (ui (handleAnalyze typed)) = None ∧
  network (handleAnalyze typed) =
    [ {| url := "http://localhost:5000/api/process-text";
         method := "POST";
         headers := [("Content-Type", "application/json")];
         body := Some (JObj {[ "text" := JStr " cat " ]}) |} ] ∧
  pending (handleAnalyze typed) = {[ 0%nat := AnalyzeFetch ]}.
Proof.
  split; [vm_compute; discriminate|].
  apply (valid_input_sends_request typed). vm_compute. discriminate.
Defined.

Lemma loading_cleared_witness :
  wf typed ∧ trim (inputText (ui typed)) ≠ "" ∧
  isLoading (ui (submit (Rejected (Error "Failed to fetch")) typed)) = false ∧
  pending (submit (Rejected (Error "Failed to fetch")) typed) = pending typed.
Proof.
  split; [exact wf_typed|]. split; [vm_compute; discriminate|].
  apply (loading_cleared typed (Rejected (Error "Failed to fetch")));
    [exact wf_typed | vm_compute; discriminate].
Defined.

Lemma failed_submit_keeps_words_witness :
  wf analysed ∧
  error (ui (submit (Answered (Response 500) (Normal JNull)) analysed)) ≠ None ∧
  processedWords (ui (submit (Answered (Response 500) (Normal JNull)) analysed)) =
    processedWords (ui analysed) ∧
  render_results (ui (submit (Answered (Response 500) (Normal JNull)) analysed)) =
    render_results (ui analysed).
Proof.
  split; [exact wf_analysed|]. split; [vm_compute; discriminate|].
  apply (failed_submit_keeps_words analysed (Answered (Response 500) (Normal JNull)));
    [exact wf_analysed | vm_compute; discriminate].
Defined.

Lemma server_error_message_witness :
  wf typed ∧ trim (inputText (ui typed)) ≠ "" ∧ ok (Response 500) = false ∧
  (status (Response 500) < 2 ^ 16)%N ∧
  error (ui (submit (Answered (Response 500) (Normal JNull)) typed)) =
    Some "Failed to process text: Server error: 500".
Proof.
  split; [exact wf_typed|]. split; [vm_compute; discriminate|].
  split; [reflexivity|]. split; [reflexivity|].
  apply (server_error_message typed (Response 500) (Normal JNull));
    [exact wf_typed | vm_compute; discriminate | reflexivity | reflexivity].
Defined.

Lemma empty_words_reported_witness :
  wf typed ∧ trim (inputText (ui typed)) ≠ "" ∧ ok (Response 200) = true ∧
  ({[ "words" := JArr [] ]} : gmap string jsval) !! "words" = Some (JArr []) ∧
  error (ui (submit (Answered (Response 200) (Normal (JObj {[ "words" := JArr [] ]}))) typed)) =
    Some "No words returned from server" ∧
  render_results
    (ui (submit (Answered (Response 200) (Normal (JObj {[ "words" := JArr [] ]}))) typed)) =
    Normal None.
Proof.
  split; [exact wf_typed|]. split; [vm_compute; discriminate|].
  split; [reflexivity|]. split; [reflexivity|].
  destruct (empty_words_reported typed (Response 200) {[ "words" := JArr [] ]})
    as (Herr & _ & _ & Hnone);
    [exact wf_typed | vm_compute; discriminate | reflexivity
    | right; reflexivity |].
  split; [exact Herr | apply Hnone; reflexivity].
Defined.

(** C1 as stated fails: after an analysis that returned words, an answer
    with an empty [words] sets the message, and the earlier word list is
    rendered all the same. *)
Lemma empty_words_keep_earlier_list :
  error (ui (submit (Answered (Response 200) (Normal (JObj {[ "words" := JArr [] ]})))
               analysed)) = Some "No words returned from server" ∧
  render_results
    (ui (submit (Answered (Response 200) (Normal (JObj {[ "words" := JArr [] ]})))
           analysed)) =
    Normal (Some [ {| className := "word importance-4"; opacity := JNum (Some 1%Z);
                      onClick := JObj cat; label := JStr "cat" |};
                   {| className := "word importance-2"; opacity := JNum (Some 1%Z);
                      onClick := JObj sat; label := JStr "sat" |} ]) ∧
  render_results
    (ui (submit (Answered (Response 200) (Normal (JObj {[ "words" := JArr [] ]})))
           analysed)) ≠ Normal None.
Proof.
  assert (Hlist : render_results
    (ui (submit (Answered (Response 200) (Normal (JObj {[ "words" := JArr [] ]})))
           analysed)) =
    Normal (Some [ {| className := "word importance-4"; opacity := JNum (Some 1%Z);
                      onClick := JObj cat; label := JStr "cat" |};
                   {| className := "word importance-2"; opacity := JNum (Some 1%Z);
                      onClick := JObj sat; label := JStr "sat" |} ])) by reflexivity.
  split; [reflexivity|]. split; [exact Hlist|]. rewrite Hlist. discriminate.
Qed.

Lemma words_rendered_as_received_witness :
  processedWords (ui analysed) = JArr (JObj <$> [cat; sat]) ∧
  [cat; sat] ≠ [] ∧
  Forall2 in_bucket [cat; sat] [4%N; 2%N] ∧
  render_results (ui analysed) =
    Normal (Some [expected_span cat 4; expected_span sat 2]) ∧
  step analysed (ClickWord 1) = handleWordClick (JObj sat) analysed.
Proof.
  assert (Hwords : processedWords (ui analysed) = JArr (JObj <$> [cat; sat]))
    by reflexivity.
  assert (Hin : Forall2 in_bucket [cat; sat] [4%N; 2%N]).
  { repeat constructor; (reflexivity || discriminate). }
  split; [exact Hwords|]. split; [discriminate|]. split; [exact Hin|].
  destruct (words_rendered_as_received analysed [cat; sat] [4%N; 2%N])
    as [Hres Hclick]; [exact Hwords | discriminate | exact Hin |].
  split; [exact Hres|].
  apply (Hclick 1%nat sat None); reflexivity.
Defined.

Lemma stale_translation_overwrites_witness :
  cbind (Get (JObj cat) "word") ToString = Normal "cat" ∧
  selectedWord (ui (handleWordClick (JObj cat) analysed)) = JObj cat ∧
  selectedWord (ui (handleWordClick (JObj sat) (handleWordClick (JObj cat) analysed))) =
    JObj sat ∧
  selectedWord
    (ui (settle 2 (Answered (Response 200) (Normal chatul))
           (handleWordClick (JObj sat) (handleWordClick (JObj cat) analysed)))) =
    JObj (spread chatul ∪ cat).
Proof.
  split; [reflexivity|].
  destruct (stale_translation_overwrites analysed (JObj cat) (JObj sat) "cat"
              (Response 200) chatul) as (Ha & _ & _ & _ & _ & Hb & Hlate);
    [reflexivity|].
  split; [exact Ha|]. split; [exact Hb|]. exact Hlate.
Defined.

Lemma rejected_translation_only_logged_witness :
  translation_rejected clicked (FetchSettled 2 (Throw (Error "Failed to fetch")))
    (Error "Failed to fetch") ∧
  ui (step clicked (FetchSettled 2 (Throw (Error "Failed to fetch")))) = ui clicked ∧
  console (step clicked (FetchSettled 2 (Throw (Error "Failed to fetch")))) =
    ConsoleError "Translation error:" (Error "Failed to fetch") :: console clicked.
Proof.
  assert (Hfail : translation_rejected clicked
            (FetchSettled 2 (Throw (Error "Failed to fetch"))) (Error "Failed to fetch")).
  { split; [reflexivity|]. exists (JObj cat). reflexivity. }
  split; [exact Hfail|].
  destruct (rejected_translation_only_logged clicked _ _ Hfail)
    as (Hui & _ & _ & _ & _ & Hlog & _).
  split; [exact Hui | exact Hlog].
Defined.

(** C6: the claim fails on a failure that is answered.  "cat" is selected
    and the translation endpoint answers 404 with the body
    [{"error": "Word not found"}].  [handleWordClick] does not look at
    [response.ok], as [handleAnalyze] does: the body is merged into the
    selection, which gains the field [error], and nothing is logged. *)
Lemma translation_http_error_merged :
  ok (Response 404) = false ∧
  selectedWord (ui (settle 2 (Answered (Response 404) (Normal (JObj not_found))) clicked)) =
    JObj (<[ "error" := JStr "Word not found" ]> cat) ∧
  selectedWord (ui (settle 2 (Answered (Response 404) (Normal (JObj not_found))) clicked)) ≠
    selectedWord (ui clicked) ∧
  console (settle 2 (Answered (Response 404) (Normal (JObj not_found))) clicked) =
    console clicked.
Proof.
  assert (Hmerged :
    selectedWord (ui (settle 2 (Answered (Response 404) (Normal (JObj not_found))) clicked)) =
      JObj (<[ "error" := JStr "Word not found" ]> cat)) by reflexivity.
  split; [reflexivity|]. split; [exact Hmerged|]. split; [|reflexivity].
  rewrite Hmerged. change (selectedWord (ui clicked)) with (JObj cat).
  intros Heq.
  apply (f_equal (λ v, match spread v !! "error" with Some _ => true | None => false end))
    in Heq.
  discriminate Heq.
Qed.

(** Closed on time 0, the panel keeps its word until the timer is due. *)
Lemma close_defers_clear_witness :
  selectedWord (ui (step (closeSidebar clicked) (Elapse 299))) = JObj cat ∧
  step (step (closeSidebar clicked) (Elapse 299)) (TimerFired 3) =
    step (closeSidebar clicked) (Elapse 299) ∧
  selectedWord (ui (step (step (closeSidebar clicked) (Elapse 300)) (TimerFired 3))) = JNull.
Proof.
  destruct (close_defers_clear clicked 299) as (_ & _ & _ & _ & Hkept & Hearly & _).
  destruct (close_defers_clear clicked 300) as (_ & _ & _ & _ & _ & _ & Hdue).
  split; [rewrite Hkept; reflexivity|].
  split; [apply Hearly; reflexivity|].
  apply Hdue. discriminate.
Defined.

End Examples.

(** * Further properties of the handlers *)

Section Further.
Context `{Engine}.
Implicit Types (w : world) (o : network_outcome) (v : jsval).

Ltac run_segment :=
  unfold handleAnalyze_fetched, handleAnalyze_parsed, handleAnalyze_try,
    handleWordClick, handleWordClick_fetched, handleWordClick_parsed,
    handleWordClick_try, try_catch_finally, mbind, M_bind, mret, M_ret,
    lift, throw, act;
  simpl.

(** ** Outcomes of an analysis *)

(** What [handleAnalyze] has logged and parked when its answer comes in. *)
Lemma submit_ok_state w r parsed :
  wf w → trim (inputText (ui w)) ≠ "" → ok r = true →
  ∃ w0, submit (Answered r parsed) w = handleAnalyze_parsed parsed w0 ∧
        ui w0 = ui (setError None (setIsLoading true w)) ∧
        network w0 = analysis_request (inputText (ui w)) :: network w.
Proof.
  intros Hwf Hne Hok. eexists. split; [by apply submit_ok|].
  by rewrite handleAnalyze_nonblank.
Qed.

Lemma submit_stores_array w r (body : gmap string jsval) first rest :
  wf w → trim (inputText (ui w)) ≠ "" → ok r = true →
  body !! "words" = Some (JArr (first :: rest)) →
  ui (submit (Answered r (Normal (JObj body))) w) =
    ui (setIsLoading false (setError None (setProcessedWords (JArr (first :: rest)) w))).
Proof.
  intros Hwf Hne Hok Hwords.
  destruct (submit_ok_state w r (Normal (JObj body))) as (w0 & -> & Hui & _); [done..|].
  rewrite handleAnalyze_parsed_normal. simpl. rewrite Hwords. simpl.
  rewrite NumberIsPositive_of_N. simpl. by rewrite Hui.
Qed.

(** X1: a successful answer whose [words] is a non-empty array replaces the
    stored words by that array, whatever was stored, clears the error and
    the loading status. *)
Theorem words_stored w r (body : gmap string jsval) first rest :
  wf w → trim (inputText (ui w)) ≠ "" → ok r = true →
  body !! "words" = Some (JArr (first :: rest)) →
  processedWords (ui (submit (Answered r (Normal (JObj body))) w)) = JArr (first :: rest) ∧
  error (ui (submit (Answered r (Normal (JObj body))) w)) = None ∧
  isLoading (ui (submit (Answered r (Normal (JObj body))) w)) = false.
Proof.
  intros Hwf Hne Hok Hwords.
  by rewrite (submit_stores_array w r body first rest).
Qed.

(** X2: when [fetch] rejects, or the body of a 2xx answer does not parse,
    the error message is "Failed to process text: " followed by the message
    of the rejection, the rejection is logged, and loading is cleared. *)
Theorem transport_failure_message w o err :
  wf w → trim (inputText (ui w)) ≠ "" →
  o = Rejected err ∨ (∃ r, ok r = true ∧ o = Answered r (Throw err)) →
  error (ui (submit o w)) = Some ("Failed to process text: " ++ message err) ∧
  isLoading (ui (submit o w)) = false ∧
  head (console (submit o w)) = Some (ConsoleError "Error:" err).
Proof.
  intros Hwf Hne [-> | (r & Hok & ->)].
  - by rewrite submit_rejected.
  - by rewrite submit_ok.
Qed.

(** X3: a 2xx answer whose body is the JSON value [null] is not reported as
    an answer without words: reading [data.words] throws, and the message is
    "Failed to process text: " followed by the engine's text for that
    [TypeError]. *)
Theorem null_body_message w r :
  wf w → trim (inputText (ui w)) ≠ "" → ok r = true →
  error (ui (submit (Answered r (Normal JNull)) w)) =
    Some ("Failed to process text: " ++ TypeErrorMessage (ReadOfNullish true "words")) ∧
  processedWords (ui (submit (Answered r (Normal JNull)) w)) = processedWords (ui w).
Proof.
  intros Hwf Hne Hok.
  destruct (submit_ok_state w r (Normal JNull)) as (w0 & -> & Hui & _); [done..|].
  rewrite handleAnalyze_parsed_normal. simpl. by rewrite Hui.
Qed.

(** X4: a 2xx answer in which [data.words] reads as a falsy value (the body
    is a number, a string, an array or an object without the key, or the
    key holds null, false, zero or the empty string) sets the message "No
    words returned from server". *)
Theorem falsy_words_reported w r data words :
  wf w → trim (inputText (ui w)) ≠ "" → ok r = true →
  Get data "words" = Normal words → ToBoolean words = false →
  error (ui (submit (Answered r (Normal data)) w)) = Some "No words returned from server" ∧
  processedWords (ui (submit (Answered r (Normal data)) w)) = processedWords (ui w).
Proof.
  intros Hwf Hne Hok Hget Hfalsy.
  destruct (submit_ok_state w r (Normal data)) as (w0 & -> & Hui & _); [done..|].
  rewrite handleAnalyze_parsed_normal. simpl. rewrite Hget. simpl.
  unfold has_words. rewrite Hfalsy. simpl. by rewrite Hui.
Qed.

(** X5: the test on [data.words] does not ask for an array.  A non-empty
    string passes it: the string is stored with no error, and the next
    render throws, since a string has no [map]. *)
Theorem string_words_break_render w r (body : gmap string jsval) (text : string) :
  wf w → trim (inputText (ui w)) ≠ "" → ok r = true →
  body !! "words" = Some (JStr text) → text ≠ "" →
  processedWords (ui (submit (Answered r (Normal (JObj body))) w)) = JStr text ∧
  error (ui (submit (Answered r (Normal (JObj body))) w)) = None ∧
  render (ui (submit (Answered r (Normal (JObj body))) w)) =
    Throw (TypeError (NotAFunction "map")).
Proof.
  intros Hwf Hne Hok Hwords Htext.
  destruct (submit_ok_state w r (Normal (JObj body))) as (w0 & -> & Hui & _); [done..|].
  rewrite handleAnalyze_parsed_normal. simpl. rewrite Hwords. simpl.
  assert (Hnonempty : negb (String.eqb text "") = true).
  { by destruct (String.eqb_spec text ""). }
  assert (Hlen : (0 <? N.of_nat (String.length text))%N = true).
  { destruct text; [done|]. simpl. by apply N.ltb_lt; lia. }
  unfold has_words. simpl. rewrite Hnonempty. simpl.
  rewrite NumberIsPositive_of_N, Hlen. simpl.
  unfold render, render_results. simpl. by rewrite NumberIsPositive_of_N, Hlen.
Qed.

(** X19: the test does not look at the elements either.  An array whose
    first element is null is stored with no error, and the next render
    throws on reading that element's [importance]. *)
Theorem null_word_breaks_render w r (body : gmap string jsval) rest :
  wf w → trim (inputText (ui w)) ≠ "" → ok r = true →
  body !! "words" = Some (JArr (JNull :: rest)) →
  processedWords (ui (submit (Answered r (Normal (JObj body))) w)) = JArr (JNull :: rest) ∧
  error (ui (submit (Answered r (Normal (JObj body))) w)) = None ∧
  render (ui (submit (Answered r (Normal (JObj body))) w)) =
    Throw (TypeError (ReadOfNullish true "importance")).
Proof.
  intros Hwf Hne Hok Hwords.
  rewrite (submit_stores_array w r body JNull rest) by done.
  repeat split. unfold render, render_results. simpl.
  by rewrite NumberIsPositive_of_N.
Qed.

(** X6: for a text of code units below 256, [handleAnalyze] sends a request
    exactly when the text has a character other than the white space of
    that range: tab, line feed, vertical tab, form feed, carriage return,
    space and no-break space. *)
Theorem request_iff_visible_text w :
  network (handleAnalyze w) ≠ network w ↔ whitespace_only (inputText (ui w)) = false.
Proof.
  rewrite <- not_true_iff_false, <- trim_blank. split.
  - intros Hsent Hb. apply Hsent. by rewrite handleAnalyze_blank.
  - intros Hne. rewrite handleAnalyze_nonblank by done. simpl.
    intros Heq. apply (f_equal length) in Heq. simpl in Heq. lia.
Qed.

(** X7: an analysis, however it ends, leaves the text, the selection and the
    panel as they were, and sends at most the one request. *)
Theorem submit_frame w o :
  wf w →
  inputText (ui (submit o w)) = inputText (ui w) ∧
  selectedWord (ui (submit o w)) = selectedWord (ui w) ∧
  sidebarOpen (ui (submit o w)) = sidebarOpen (ui w) ∧
  (network (submit o w) = network w ∨
   network (submit o w) = analysis_request (inputText (ui w)) :: network w).
Proof.
  intros Hwf. destruct (decide (trim (inputText (ui w)) = "")) as [Hb|Hne].
  { rewrite submit_blank by done. rewrite handleAnalyze_blank by done.
    repeat split. by left. }
  destruct o as [err|r parsed].
  { rewrite submit_rejected by done. rewrite handleAnalyze_nonblank by done.
    repeat split. by right. }
  destruct (ok r) eqn:Hok.
  2: { rewrite submit_not_ok by done. rewrite handleAnalyze_nonblank by done.
       repeat split. by right. }
  rewrite submit_ok by done. rewrite handleAnalyze_nonblank by done.
  destruct parsed as [data|err]; [|repeat split; by right].
  rewrite handleAnalyze_parsed_normal. simpl.
  destruct (cbind _ _) as [[words []]|err]; repeat split; by right.
Qed.

(** ** Outcomes of a selection *)

Lemma selectWord_not_started wordData o w err :
  wf w → cbind (Get wordData "word") ToString = Throw err →
  selectWord wordData o w =
    log (ConsoleError "Translation error:" err)
      (setSidebarOpen true (setSelectedWord wordData w)).
Proof.
  intros Hwf Hthrow. unfold selectWord, settle. rewrite handleWordClick_cases.
  simpl. rewrite Hthrow.
  assert (Hfree : pending w !! next_id w = None) by (apply wf_fresh; [done|lia]).
  destruct o as [err'|r parsed]; unfold step; simpl; rewrite Hfree; [done|].
  simpl. by rewrite Hfree.
Qed.

Lemma selectWord_started wordData o w word :
  wf w → cbind (Get wordData "word") ToString = Normal word →
  ∃ w0, ui w0 = ui (setSidebarOpen true (setSelectedWord wordData w)) ∧
        network w0 = translation_request word :: network w ∧
        selectWord wordData o w =
          match o with
          | Rejected err | Answered _ (Throw err) =>
              log (ConsoleError "Translation error:" err) w0
          | Answered _ (Normal data) => setSelectedWord (spread2 wordData data) w0
          end.
Proof.
  intros Hwf Hword. unfold selectWord, settle. rewrite handleWordClick_cases.
  simpl. rewrite Hword.
  destruct o as [err|r [data|err]]; unfold step; simpl;
    rewrite ?lookup_insert_eq; simpl; rewrite ?lookup_insert_eq;
    eexists; (split; [|split; [|reflexivity]]); done.
Qed.

(** X8: a selection, whatever the translation call does, never touches the
    text, the stored words, the loading status or the error message; it
    leaves the panel open. *)
Theorem selectWord_frame wordData o w :
  wf w →
  inputText (ui (selectWord wordData o w)) = inputText (ui w) ∧
  processedWords (ui (selectWord wordData o w)) = processedWords (ui w) ∧
  isLoading (ui (selectWord wordData o w)) = isLoading (ui w) ∧
  error (ui (selectWord wordData o w)) = error (ui w) ∧
  sidebarOpen (ui (selectWord wordData o w)) = true.
Proof.
  intros Hwf. destruct (cbind (Get wordData "word") ToString) as [word|err] eqn:Hword.
  - destruct (selectWord_started wordData o w word) as (w0 & Hui & _ & ->); [done..|].
    destruct o as [err|r [data|err]]; simpl; by rewrite Hui.
  - by rewrite (selectWord_not_started wordData o w err).
Qed.

(** X9: an annotation without a [word] key is looked up under the word
    "undefined". *)
Theorem missing_word_requested_as_undefined (ann : gmap string jsval) w :
  ann !! "word" = None →
  network (handleWordClick (JObj ann) w) =
    {| url := API_URL ++ "/api/translate/word/undefined";
       method := "GET"; headers := []; body := None |} :: network w.
Proof.
  intros Hmissing. rewrite handleWordClick_cases. simpl. by rewrite Hmissing.
Qed.

(** X10: a translation answer that carries no properties (null, a number, a
    boolean) leaves the selected annotation with the fields it had. *)
Theorem empty_translation_keeps_fields (ann : gmap string jsval) (word : string) r data w :
  wf w → cbind (Get (JObj ann) "word") ToString = Normal word →
  spread data = ∅ →
  selectedWord (ui (selectWord (JObj ann) (Answered r (Normal data)) w)) = JObj ann.
Proof.
  intros Hwf Hword Hempty.
  destruct (selectWord_started (JObj ann) (Answered r (Normal data)) w word)
    as (w0 & _ & _ & ->); [done..|].
  simpl. unfold spread2. rewrite Hempty. simpl. by rewrite (left_id_L ∅ (∪)).
Qed.

(** ** Timers and late answers *)

Lemma handleWordClick_now wordData w : now (handleWordClick wordData w) = now w.
Proof. rewrite handleWordClick_cases. simpl. by destruct (cbind _ _). Qed.

(** X11: the timer of [closeSidebar] is not cancelled by a new selection.  A
    word clicked after the panel was closed and before the timer is due
    opens the panel on that word, and the timer then clears the selection:
    the panel is open in the state and not rendered. *)
Theorem close_then_click_loses_selection w b (elapsed : N) :
  (300 ≤ elapsed)%N →
  let w2 := handleWordClick b (closeSidebar w) in
  let w3 := step (step w2 (Elapse elapsed)) (TimerFired (next_id w)) in
  selectedWord (ui w2) = b ∧ sidebarOpen (ui w2) = true ∧
  selectedWord (ui w3) = JNull ∧ sidebarOpen (ui w3) = true ∧
  render_sidebar (ui w3) = Normal None.
Proof.
  intros Hdue w2 w3.
  assert (Htimer : pending w2 !! next_id w = Some (Timeout (now w + 300))).
  { apply handleWordClick_keeps; simpl; [lia|]. apply lookup_insert_eq. }
  assert (Hnow : now w2 = now w) by (subst w2; by rewrite handleWordClick_now).
  destruct (handleWordClick_selects b (closeSidebar w)) as [Hsel Hopen].
  assert (Hw3 : w3 = closeSidebar_timeout (resume (next_id w) (tick elapsed w2))).
  { subst w3. unfold step. simpl. rewrite Htimer, Hnow.
    by destruct (N.leb_spec (now w + 300) (now w + elapsed)); [|lia]. }
  repeat split; [done|done|by rewrite Hw3|by rewrite Hw3|].
  unfold render_sidebar. rewrite Hw3. simpl. by rewrite andb_false_r.
Qed.

(** X12: a request in flight is not cancelled by closing the panel.  When
    its answer arrives after the timer has cleared the selection, the
    selection is set again to the merged annotation, with the panel closed. *)
Theorem late_translation_after_close w a (word : string) r data (elapsed : N) :
  cbind (Get a "word") ToString = Normal word → (300 ≤ elapsed)%N →
  let w1 := closeSidebar (handleWordClick a w) in
  let w2 := step (step w1 (Elapse elapsed)) (TimerFired (S (next_id w))) in
  let w3 := settle (next_id w) (Answered r (Normal data)) w2 in
  selectedWord (ui w2) = JNull ∧ sidebarOpen (ui w2) = false ∧
  selectedWord (ui w3) = JObj (spread data ∪ spread a) ∧ sidebarOpen (ui w3) = false.
Proof.
  intros Hword Hdue w1 w2 w3. subst w3 w2 w1.
  rewrite handleWordClick_cases. simpl. rewrite Hword. simpl.
  rewrite lookup_insert_eq.
  destruct (N.leb_spec (now w + 300) (now w + elapsed)); [|lia]. simpl.
  rewrite lookup_delete_ne by lia. rewrite lookup_insert_ne by lia.
  rewrite lookup_insert_eq. run_segment. by rewrite lookup_insert_eq.
Qed.

(** ** The detail panel *)

Lemma traverse_render_example (exs : list (gmap string jsval)) :
  traverse render_example (JObj <$> exs) = Normal (example_pairs exs).
Proof.
  induction exs as [|ex exs IH]; [done|].
  cbn [fmap list_fmap traverse]. fold (fmap (M:=list) JObj exs). rewrite IH. done.
Qed.

(** X13: right after a click on an annotation that has none of the
    translation fields, the panel shows the word and its importance as
    received, the loading placeholder for the translation, "B1" for the
    level, "Unknown" for the root, and neither examples nor a note. *)
Theorem fresh_panel_placeholders (s : state) (ann : gmap string jsval) :
  sidebarOpen s = true → selectedWord s = JObj ann →
  ann !! "translation" = None → ann !! "transliteration" = None →
  ann !! "cefr_level" = None → ann !! "root" = None →
  ann !! "example_sentences" = None → ann !! "note" = None →
  render_sidebar s =
    Normal (Some {| word_title := field ann "word";
                    hebrew_text := JStr placeholder_loading;
                    transliteration := JStr "";
                    importance := field ann "importance";
                    cefr_className := "cefr-badge cefr-B1";
                    cefr_badge := JStr "B1";
                    root := JStr "Unknown";
                    examples := None;
                    note := None |}).
Proof.
  intros Hopen Hsel Htr Htl Hcefr Hroot Hex Hnote.
  unfold render_sidebar, render_panel, field. rewrite Hopen, Hsel. simpl.
  by rewrite Htr, Htl, Hcefr, Hroot, Hex, Hnote.
Qed.

(** X14: once a translation with a non-empty [translation] string has been
    merged into the selection, the panel shows that string in place of the
    placeholder, and still the word and importance of the annotation when
    the answer has no such keys. *)
Theorem merged_panel_shows_translation (s : state) (ann data : gmap string jsval)
    (text cls : string) :
  sidebarOpen s = true → selectedWord s = spread2 (JObj ann) (JObj data) →
  data !! "translation" = Some (JStr text) → text ≠ "" →
  data !! "word" = None → data !! "importance" = None →
  (data ∪ ann) !! "example_sentences" = None →
  ToString (JsOr (field (data ∪ ann) "cefr_level") (JStr "B1")) = Normal cls →
  ∃ p, render_sidebar s = Normal (Some p) ∧
       hebrew_text p = JStr text ∧
       word_title p = field ann "word" ∧
       importance p = field ann "importance" ∧
       cefr_className p = "cefr-badge cefr-" ++ cls.
Proof.
  intros Hopen Hsel Htr Htext Hword Himp Hex Hcls.
  unfold render_sidebar, render_panel. rewrite Hopen, Hsel. simpl.
  unfold field in Hcls. rewrite Hex, Hcls. simpl.
  eexists. split; [reflexivity|]. simpl.
  rewrite !lookup_union, Htr, Hword, Himp. simpl.
  assert (Hnonempty : negb (String.eqb text "") = true).
  { by destruct (String.eqb_spec text ""). }
  repeat split.
  - destruct (ann !! "translation"); unfold JsOr; simpl; by rewrite Hnonempty.
  - unfold field. by destruct (ann !! "word").
  - unfold field. by destruct (ann !! "importance").
Qed.

(** X15: the example sentences of the selection are shown in order, each as
    its [english] and [hebrew] fields; an empty list shows no examples
    section. *)
Theorem examples_listed (s : state) (sel : gmap string jsval)
    (exs : list (gmap string jsval)) (cls : string) :
  sidebarOpen s = true → selectedWord s = JObj sel →
  sel !! "example_sentences" = Some (JArr (JObj <$> exs)) →
  ToString (JsOr (field sel "cefr_level") (JStr "B1")) = Normal cls →
  ∃ p, render_sidebar s = Normal (Some p) ∧
       examples p = match exs with
                    | [] => None
                    | _ => Some (example_pairs exs)
                    end.
Proof.
  intros Hopen Hsel Hex Hcls.
  unfold render_sidebar, render_panel. rewrite Hopen, Hsel. simpl.
  unfold field in Hcls. rewrite Hex, Hcls. simpl.
  rewrite NumberIsPositive_of_N. destruct exs as [|ex exs].
  - simpl. eexists. split; reflexivity.
  - simpl N.ltb. cbv iota. cbn [ArrayMap].
    rewrite (traverse_render_example (ex :: exs)). simpl.
    eexists. split; reflexivity.
Qed.

(** ** What the loop keeps *)

Lemma parked_insert_analysis w w' i t :
  pending w' = <[i := t]> (pending w) → is_analysis t = true → pending w !! i = None →
  ∀ id, analysis_parked w' id ↔ id = i ∨ analysis_parked w id.
Proof.
  intros Hp Ht Hfree id. unfold analysis_parked. rewrite Hp. split.
  - intros (t' & Hid & Ht'). apply lookup_insert_Some in Hid as [[-> ->]|[Hne Hid]]; eauto.
  - intros [->|(t' & Hid & Ht')].
    + exists t. by rewrite lookup_insert_eq.
    + exists t'. split; [|done]. rewrite lookup_insert_ne; [done|congruence].
Qed.

Lemma parked_insert_other w w' i t :
  pending w' = <[i := t]> (pending w) → is_analysis t = false → pending w !! i = None →
  ∀ id, analysis_parked w' id ↔ analysis_parked w id.
Proof.
  intros Hp Ht Hfree id. unfold analysis_parked. rewrite Hp. split.
  - intros (t' & Hid & Ht'). apply lookup_insert_Some in Hid as [[-> ->]|[Hne Hid]];
      [congruence|eauto].
  - intros (t' & Hid & Ht'). exists t'. split; [|done].
    rewrite lookup_insert_ne; [done|congruence].
Qed.

Lemma parked_delete w w' i :
  pending w' = delete i (pending w) →
  ∀ id, analysis_parked w' id ↔ id ≠ i ∧ analysis_parked w id.
Proof.
  intros Hp id. unfold analysis_parked. rewrite Hp. split.
  - intros (t' & Hid & Ht'). apply lookup_delete_Some in Hid as [Hne Hid]. eauto.
  - intros [Hne (t' & Hid & Ht')]. exists t'. split; [|done].
    by rewrite lookup_delete_ne.
Qed.

Lemma parked_resume_other w i t :
  pending w !! i = Some t → is_analysis t = false →
  ∀ id, analysis_parked (resume i w) id ↔ analysis_parked w id.
Proof.
  intros Hi Ht id. rewrite (parked_delete w (resume i w) i) by done.
  split; [by intros [_ ?]|]. intros Hid. split; [|done]. intros ->.
  destruct Hid as (t' & Hid & Ht'). rewrite Hi in Hid. injection Hid as <-.
  congruence.
Qed.

Lemma parked_same w w' :
  pending w' = pending w → ∀ id, analysis_parked w' id ↔ analysis_parked w id.
Proof. intros Hp id. unfold analysis_parked. by rewrite Hp. Qed.

Lemma single_flight_same w w' :
  pending w' = pending w → isLoading (ui w') = isLoading (ui w) →
  single_flight w → single_flight w'.
Proof.
  intros Hp Hl. unfold single_flight. rewrite Hl.
  pose proof (parked_same w w' Hp) as Hiff.
  destruct (isLoading (ui w)).
  - intros (id & Hid & Huniq). exists id. split; [by apply Hiff|].
    intros id' Hid'. by apply Huniq, Hiff.
  - intros Hnone id Hid. by apply (Hnone id), Hiff.
Qed.

(** Parking or resuming what is not an analysis changes nothing. *)
Lemma single_flight_other w w' :
  (∀ id, analysis_parked w' id ↔ analysis_parked w id) →
  isLoading (ui w') = isLoading (ui w) →
  single_flight w → single_flight w'.
Proof.
  intros Hiff Hl. unfold single_flight. rewrite Hl.
  destruct (isLoading (ui w)).
  - intros (id & Hid & Huniq). exists id. split; [by apply Hiff|].
    intros id' Hid'. by apply Huniq, Hiff.
  - intros Hnone id Hid. by apply (Hnone id), Hiff.
Qed.

(** The analysis under way ends. *)
Lemma single_flight_done w w' i :
  analysis_parked w i → pending w' = delete i (pending w) →
  isLoading (ui w') = false →
  single_flight w → single_flight w'.
Proof.
  intros Hi Hp Hl. unfold single_flight. rewrite Hl.
  pose proof (parked_delete w w' i Hp) as Hiff.
  destruct (isLoading (ui w)).
  - intros (id & Hid & Huniq) id' Hid'. apply Hiff in Hid' as [Hne Hid'].
    apply Huniq in Hid'. apply Huniq in Hi. congruence.
  - intros Hnone. by destruct (Hnone i).
Qed.

Lemma single_flight_loading w i :
  single_flight w → analysis_parked w i → isLoading (ui w) = true.
Proof.
  unfold single_flight. destruct (isLoading (ui w)); [done|].
  intros Hnone Hi. by destruct (Hnone i).
Qed.

Lemma single_flight_step w e : wf w → single_flight w → single_flight (step w e).
Proof.
  intros Hwf Hsf.
  assert (Hfree : pending w !! next_id w = None) by (apply wf_fresh; [done|lia]).
  destruct e as [value| |index| |id r|id r|id|ms]; unfold step.
  - by destruct (render (ui w)).
  - destruct (render (ui w)) as [v|] eqn:Hrender; [|done].
    assert (Hdis : analyze_disabled v = isLoading (ui w)).
    { unfold render in Hrender. destruct (render_results (ui w)); [|done].
      simpl in Hrender. destruct (render_sidebar (ui w)); [|done].
      simpl in Hrender. by injection Hrender as <-. }
    rewrite Hdis. destruct (isLoading (ui w)) eqn:Hl; [done|].
    destruct (decide (trim (inputText (ui w)) = "")) as [Hb|Hne].
    + rewrite handleAnalyze_blank by done. by apply (single_flight_same w).
    + rewrite handleAnalyze_nonblank by done.
      unfold single_flight in *. rewrite Hl in Hsf. simpl.
      exists (next_id w). split.
      * exists AnalyzeFetch. simpl. by rewrite lookup_insert_eq.
      * intros id' (t & Hid' & Ht). simpl in Hid'.
        apply lookup_insert_Some in Hid' as [[-> _]|[_ Hid']]; [done|].
        destruct (Hsf id'). by exists t.
  - destruct (render (ui w)) as [v|]; [|done].
    destruct (results v ≫= _) as [span|]; [|done].
    rewrite handleWordClick_cases. simpl. destruct (cbind _ _).
    + apply (single_flight_other w); [|done..].
      by apply (parked_insert_other w _ (next_id w) (TranslateFetch (onClick span))).
    + by apply (single_flight_same w).
  - destruct (render (ui w)) as [v|]; [|done].
    destruct (sidebar v); [|done].
    apply (single_flight_other w); [|done..].
    by apply (parked_insert_other w _ (next_id w) (Timeout (now w + 300))).
  - destruct (pending w !! id) as [[| |wordData| |]|] eqn:Hid; try done.
    + assert (Hparked : analysis_parked w id) by (by exists AnalyzeFetch).
      pose proof (single_flight_loading w id Hsf Hparked) as Hl.
      destruct r as [r|err]; [destruct (ok r) eqn:Hok|].
      * rewrite handleAnalyze_fetched_ok by done.
        unfold single_flight in *. simpl. rewrite Hl in *.
        destruct Hsf as (id0 & _ & Huniq). exists (next_id w). split.
        { exists AnalyzeJson. simpl. by rewrite lookup_insert_eq. }
        intros id' (t & Hid' & Ht). simpl in Hid'.
        apply lookup_insert_Some in Hid' as [[-> _]|[_ Hid']]; [done|].
        apply lookup_delete_Some in Hid' as [Hne Hid'].
        assert (id' = id0) by (apply Huniq; by exists t).
        assert (id = id0) by (by apply Huniq). congruence.
      * rewrite handleAnalyze_fetched_not_ok by done.
        by apply (single_flight_done w _ id).
      * rewrite handleAnalyze_fetched_throw. by apply (single_flight_done w _ id).
    + assert (Hgone : ∀ id', analysis_parked (resume id w) id' ↔ analysis_parked w id').
      { by apply (parked_resume_other w id (TranslateFetch wordData)). }
      destruct r as [r|err].
      * apply (single_flight_other (resume id w)); [|done|by apply (single_flight_other w)].
        apply (parked_insert_other (resume id w) _ (next_id w) (TranslateJson wordData));
          [done|done|]. simpl. rewrite lookup_delete_ne; [done|congruence].
      * by apply (single_flight_other w).
  - destruct (pending w !! id) as [[| |wordData|wordData|]|] eqn:Hid; try done.
    + assert (Hparked : analysis_parked w id) by (by exists AnalyzeJson).
      apply (single_flight_done w _ id); [done| | |done].
      * destruct r as [data|err]; [|done]. rewrite handleAnalyze_parsed_normal. simpl.
        by destruct (cbind _ _) as [[words []]|err].
      * destruct r as [data|err]; [|done]. rewrite handleAnalyze_parsed_normal. simpl.
        by destruct (cbind _ _) as [[words []]|err].
    + assert (Hgone : ∀ id', analysis_parked (resume id w) id' ↔ analysis_parked w id').
      { by apply (parked_resume_other w id (TranslateJson wordData)). }
      destruct r as [data|err]; by apply (single_flight_other w).
  - destruct (pending w !! id) as [[| | | |due]|] eqn:Hid; try done.
    destruct (due <=? now w)%N; [|done].
    apply (single_flight_other w); [|done..].
    by apply (parked_resume_other w id (Timeout due)).
  - by apply (single_flight_same w).
Qed.

(** X16: whatever the user does and the network answers, at most one
    analysis is under way, and one is under way exactly while the loading
    status is set: the button it is started with is disabled until it ends. *)
Theorem one_analysis_at_a_time (es : list event) :
  single_flight (run initial_world es) ∧ wf (run initial_world es).
Proof.
  assert (Hinv : ∀ w, wf w → single_flight w → single_flight (run w es) ∧ wf (run w es)).
  { induction es as [|e es IH]; intros w Hwf Hsf; [done|].
    simpl. apply IH; [by apply wf_step|by apply single_flight_step]. }
  apply Hinv; [apply wf_initial_world|].
  intros id (t & Hid & _). simpl in Hid. by rewrite lookup_empty in Hid.
Qed.

Lemma words_checked_step w e : words_checked w → words_checked (step w e).
Proof.
  intros Hchecked.
  assert (Hsame : ∀ w', processedWords (ui w') = processedWords (ui w) → words_checked w').
  { intros w' Heq. unfold words_checked. by rewrite Heq. }
  destruct e as [value| |index| |id r|id r|id|ms]; unfold step.
  - by destruct (render (ui w)).
  - destruct (render (ui w)) as [v|]; [|done].
    destruct (analyze_disabled v); [done|]. apply Hsame. unfold handleAnalyze.
    by destruct (negb _).
  - destruct (render (ui w)) as [v|]; [|done].
    destruct (results v ≫= _) as [span|]; [|done].
    apply Hsame. rewrite handleWordClick_cases. simpl. by destruct (cbind _ _).
  - destruct (render (ui w)) as [v|]; [|done]. by destruct (sidebar v).
  - destruct (pending w !! id) as [[| |wordData| |]|]; try done.
    + apply Hsame. destruct r as [r|err]; [destruct (ok r) eqn:Hok|].
      * by rewrite handleAnalyze_fetched_ok.
      * by rewrite handleAnalyze_fetched_not_ok.
      * done.
    + apply Hsame. by destruct r.
  - destruct (pending w !! id) as [[| |wordData|wordData|]|]; try done.
    + destruct r as [data|err]; [|by apply Hsame].
      rewrite handleAnalyze_parsed_normal. simpl.
      destruct (Get data "words") as [words|err]; simpl; [|by apply Hsame].
      destruct (has_words words) as [[]|err] eqn:Hwords; simpl; [|by apply Hsame..].
      by right.
    + by destruct r.
  - destruct (pending w !! id) as [[| | | |due]|]; try done.
    by destruct (due <=? now w)%N.
  - done.
Qed.

(** X17: the stored words are replaced only by a value that passed the test
    of [handleAnalyze]: at every moment they are the empty list of the
    start or a value for which [data.words && data.words.length > 0] held,
    so an empty array is never stored by an analysis. *)
Theorem stored_words_passed_the_test (es : list event) :
  words_checked (run initial_world es) ∧
  (∀ elems, processedWords (ui (run initial_world es)) = JArr elems →
            render_results (ui (run initial_world es)) = Normal None ↔ elems = []).
Proof.
  assert (Hinv : ∀ w, words_checked w → words_checked (run w es)).
  { induction es as [|e es IH]; intros w Hw; [done|].
    simpl. by apply IH, words_checked_step. }
  split; [apply Hinv; by left|].
  intros elems Helems. unfold render_results. rewrite Helems. simpl.
  rewrite NumberIsPositive_of_N. destruct elems as [|x rest]; [done|].
  simpl N.ltb. cbv iota. split; [|done].
  by destruct (traverse render_word (x :: rest)).
Qed.

(** ** The address of a translation *)








End Further.

(** * The further properties at work *)

Section FurtherExamples.
#[local] Existing Instance integer_engine.

Lemma wf_sample_analysed : wf analysed.
Proof. apply wf_run, wf_initial_world. Qed.

Lemma wf_sample_typed : wf typed.
Proof. apply wf_run, wf_initial_world. Qed.

Lemma words_stored_witness :
  wf typed ∧ trim (inputText (ui typed)) ≠ "" ∧ ok (Response 200) = true ∧
  ({[ "words" := JArr [JObj cat] ]} : gmap string jsval) !! "words" = Some (JArr [JObj cat]) ∧
  processedWords
    (ui (submit (Answered (Response 200) (Normal (JObj {[ "words" := JArr [JObj cat] ]}))) typed)) =
    JArr [JObj cat].
Proof.
  split; [exact wf_sample_typed|]. split; [vm_compute; discriminate|].
  split; [reflexivity|]. split; [reflexivity|].
  apply (words_stored typed (Response 200) {[ "words" := JArr [JObj cat] ]} (JObj cat) []);
    [exact wf_sample_typed | vm_compute; discriminate | reflexivity | reflexivity].
Defined.

Lemma transport_failure_message_witness :
  wf typed ∧ trim (inputText (ui typed)) ≠ "" ∧
  error (ui (submit (Rejected (Error "Failed to fetch")) typed)) =
    Some "Failed to process text: Failed to fetch".
Proof.
  split; [exact wf_sample_typed|]. split; [vm_compute; discriminate|].
  apply (transport_failure_message typed (Rejected (Error "Failed to fetch"))
           (Error "Failed to fetch"));
    [exact wf_sample_typed | vm_compute; discriminate | by left].
Defined.

Lemma null_body_message_witness :
  wf typed ∧ trim (inputText (ui typed)) ≠ "" ∧ ok (Response 200) = true ∧
  error (ui (submit (Answered (Response 200) (Normal JNull)) typed)) =
    Some "Failed to process text: Cannot read properties of null (reading 'words')".
Proof.
  split; [exact wf_sample_typed|]. split; [vm_compute; discriminate|].
  split; [reflexivity|].
  apply (null_body_message typed (Response 200));
    [exact wf_sample_typed | vm_compute; discriminate | reflexivity].
Defined.

Lemma falsy_words_reported_witness :
  wf typed ∧ trim (inputText (ui typed)) ≠ "" ∧ ok (Response 200) = true ∧
  Get (JArr []) "words" = Normal JUndefined ∧ ToBoolean JUndefined = false ∧
  error (ui (submit (Answered (Response 200) (Normal (JArr []))) typed)) =
    Some "No words returned from server".
Proof.
  split; [exact wf_sample_typed|]. split; [vm_compute; discriminate|].
  split; [reflexivity|]. split; [reflexivity|]. split; [reflexivity|].
  apply (falsy_words_reported typed (Response 200) (JArr []) JUndefined);
    [exact wf_sample_typed | vm_compute; discriminate | reflexivity..].
Defined.

Lemma string_words_break_render_witness :
  wf typed ∧ trim (inputText (ui typed)) ≠ "" ∧ ok (Response 200) = true ∧
  ({[ "words" := JStr "cat" ]} : gmap string jsval) !! "words" = Some (JStr "cat") ∧
  "cat" ≠ "" ∧
  render (ui (submit (Answered (Response 200) (Normal (JObj {[ "words" := JStr "cat" ]}))) typed)) =
    Throw (TypeError (NotAFunction "map")).
Proof.
  split; [exact wf_sample_typed|]. split; [vm_compute; discriminate|].
  split; [reflexivity|]. split; [reflexivity|]. split; [discriminate|].
  apply (string_words_break_render typed (Response 200) {[ "words" := JStr "cat" ]} "cat");
    [exact wf_sample_typed | vm_compute; discriminate | reflexivity | reflexivity
    | discriminate].
Defined.

Lemma null_word_breaks_render_witness :
  wf typed ∧ trim (inputText (ui typed)) ≠ "" ∧ ok (Response 200) = true ∧
  ({[ "words" := JArr [JNull] ]} : gmap string jsval) !! "words" = Some (JArr [JNull]) ∧
  render (ui (submit (Answered (Response 200) (Normal (JObj {[ "words" := JArr [JNull] ]}))) typed)) =
    Throw (Error "Cannot read properties of null (reading 'importance')").
Proof.
  split; [exact wf_sample_typed|]. split; [vm_compute; discriminate|].
  split; [reflexivity|]. split; [reflexivity|].
  apply (null_word_breaks_render typed (Response 200) {[ "words" := JArr [JNull] ]} []);
    [exact wf_sample_typed | vm_compute; discriminate | reflexivity | reflexivity].
Defined.

Lemma submit_frame_witness :
  wf analysed ∧
  selectedWord (ui (submit (Rejected (Error "Failed to fetch")) analysed)) =
    selectedWord (ui analysed).
Proof.
  split; [exact wf_sample_analysed|].
  apply (submit_frame analysed (Rejected (Error "Failed to fetch"))).
  exact wf_sample_analysed.
Defined.

Lemma selectWord_frame_witness :
  wf analysed ∧
  error (ui (selectWord (JObj cat) (Rejected (Error "Failed to fetch")) analysed)) =
    error (ui analysed).
Proof.
  split; [exact wf_sample_analysed|].
  apply (selectWord_frame (JObj cat) (Rejected (Error "Failed to fetch")) analysed).
  exact wf_sample_analysed.
Defined.

Lemma missing_word_requested_as_undefined_witness :
  nameless !! "word" = None ∧
  url <$> network (handleWordClick (JObj nameless) analysed) =
    ["http://localhost:5000/api/translate/word/undefined";
     "http://localhost:5000/api/process-text"].
Proof.
  split; [reflexivity|].
  rewrite (missing_word_requested_as_undefined nameless analysed); reflexivity.
Defined.

Lemma empty_translation_keeps_fields_witness :
  wf analysed ∧ cbind (Get (JObj cat) "word") ToString = Normal "cat" ∧
  spread JNull = ∅ ∧
  selectedWord (ui (selectWord (JObj cat) (Answered (Response 200) (Normal JNull)) analysed)) =
    JObj cat.
Proof.
  split; [exact wf_sample_analysed|]. split; [reflexivity|]. split; [reflexivity|].
  apply (empty_translation_keeps_fields cat "cat" (Response 200) JNull analysed);
    [exact wf_sample_analysed | reflexivity | reflexivity].
Defined.

Lemma close_then_click_loses_selection_witness :
  (300 ≤ 300)%N ∧
  selectedWord
    (ui (step (step (handleWordClick (JObj sat) (closeSidebar clicked)) (Elapse 300))
           (TimerFired (next_id clicked)))) = JNull ∧
  sidebarOpen
    (ui (step (step (handleWordClick (JObj sat) (closeSidebar clicked)) (Elapse 300))
           (TimerFired (next_id clicked)))) = true.
Proof.
  split; [reflexivity|].
  destruct (close_then_click_loses_selection clicked (JObj sat) 300)
    as (_ & _ & Hsel & Hopen & _); [reflexivity|].
  split; [exact Hsel | exact Hopen].
Defined.

Lemma late_translation_after_close_witness :
  cbind (Get (JObj cat) "word") ToString = Normal "cat" ∧ (300 ≤ 300)%N ∧
  selectedWord
    (ui (settle (next_id analysed) (Answered (Response 200) (Normal chatul))
           (step (step (closeSidebar (handleWordClick (JObj cat) analysed)) (Elapse 300))
              (TimerFired (S (next_id analysed)))))) =
    JObj (spread chatul ∪ cat).
Proof.
  split; [reflexivity|]. split; [reflexivity|].
  destruct (late_translation_after_close analysed (JObj cat) "cat" (Response 200) chatul 300)
    as (_ & _ & Hsel & _); [reflexivity | reflexivity |].
  exact Hsel.
Defined.

Lemma fresh_panel_placeholders_witness :
  sidebarOpen (ui clicked) = true ∧ selectedWord (ui clicked) = JObj cat ∧
  render_sidebar (ui clicked) =
    Normal (Some {| word_title := JStr "cat";
                    hebrew_text := JStr placeholder_loading;
                    transliteration := JStr "";
                    importance := JNum (Some 4%Z);
                    cefr_className := "cefr-badge cefr-B1";
                    cefr_badge := JStr "B1";
                    root := JStr "Unknown";
                    examples := None;
                    note := None |}).
Proof.
  split; [reflexivity|]. split; [reflexivity|].
  rewrite (fresh_panel_placeholders (ui clicked) cat); reflexivity.
Defined.

Lemma merged_panel_shows_translation_witness :
  selectedWord (ui (settle 2 (Answered (Response 200) (Normal chatul)) clicked)) =
    spread2 (JObj cat) (JObj chatul_fields) ∧
  chatul_fields !! "translation" = Some (JStr "chatul") ∧
  ∃ p, render_sidebar (ui (settle 2 (Answered (Response 200) (Normal chatul)) clicked)) =
         Normal (Some p) ∧
       hebrew_text p = JStr "chatul" ∧ word_title p = JStr "cat".
Proof.
  split; [reflexivity|]. split; [reflexivity|].
  destruct (merged_panel_shows_translation
              (ui (settle 2 (Answered (Response 200) (Normal chatul)) clicked))
              cat chatul_fields "chatul" "A1")
    as (p & Hp & Htr & Hword & _); [reflexivity | reflexivity | reflexivity | discriminate
                                   | reflexivity.. |].
  exists p. split; [exact Hp|]. split; [exact Htr | exact Hword].
Defined.

Lemma examples_listed_witness :
  sidebarOpen glossed_open = true ∧ selectedWord glossed_open = JObj glossed ∧
  ∃ p, render_sidebar glossed_open = Normal (Some p) ∧
       examples p = Some [(JStr "The cat sat.", JStr "hechatul yashav")].
Proof.
  split; [reflexivity|]. split; [reflexivity|].
  destruct (examples_listed glossed_open glossed
              [ {[ "english" := JStr "The cat sat."; "hebrew" := JStr "hechatul yashav" ]} ]
              "B1")
    as (p & Hp & Hex); [reflexivity..|].
  exists p. split; [exact Hp | exact Hex].
Defined.


(** A word with a slash and a space stays one segment. *)
Example encoded_word : encodeURIComponent "a/b c" = "a%2Fb%20c".
Proof. reflexivity. Qed.

End FurtherExamples.
